(** * Gitingest REST router ([server/routers/api.py]): model and properties

    The router exposes three ingestion endpoints (POST /ingest, GET /ingest,
    GET /ingest/summary) on top of three collaborators of the [gitingest]
    package: [parse_query], [clone_repo] and [ingest_query].  The handlers
    are embedded as computations in a state-and-exception monad; the
    collaborators are parameters of the development. *)

From Stdlib Require Import ZArith Lia Ascii String Sorted.
From stdpp Require Import base option list strings gmap pretty.

Open Scope Z_scope.

(** ** Python strings

    A [str] is modelled by a Rocq [string]; each character stands for the
    code point of the same number (so the model covers the code points
    below 256). *)

Module PyStr.

(** [str.isspace] on one character: the white space code points below 256
    are 9..13, 28..32, 0x85 and 0xA0. *)
Definition isspace (a : ascii) : bool :=
  let n := N_of_ascii a in
  ((9 <=? n) && (n <=? 13) || (28 <=? n) && (n <=? 32)
   || (n =? 133) || (n =? 160))%N.

(** [s.lstrip()] *)
Fixpoint lstrip (s : string) : string :=
  match s with
  | EmptyString => EmptyString
  | String a s' => if isspace a then lstrip s' else s
  end.

(** [s.rstrip()] *)
Fixpoint rstrip (s : string) : string :=
  match s with
  | EmptyString => EmptyString
  | String a s' =>
      match rstrip s' with
      | EmptyString => if isspace a then EmptyString else String a EmptyString
      | r => String a r
      end
  end.

(** [s.strip()] *)
Definition strip (s : string) : string := lstrip (rstrip s).

(** [s.split(c)] for a one-character separator: every occurrence of the
    separator cuts, and the result is never empty ([''.split(',')] is
    [['']]). *)
Fixpoint split (c : ascii) (s : string) : list string :=
  match s with
  | EmptyString => [EmptyString]
  | String a s' =>
      if decide (a = c) then EmptyString :: split c s'
      else match split c s' with
           | [] => [String a EmptyString]
           | t :: ts => String a t :: ts
           end
  end.

(** [sep.join(l)] *)
Fixpoint join (sep : string) (l : list string) : string :=
  match l with
  | [] => EmptyString
  | [t] => t
  | t :: ts => t +:+ sep +:+ join sep ts
  end.

(** Truth value of a [str] and of an [Optional[str]]. *)
Definition truthy (s : string) : bool := bool_decide (s ≠ "").
Definition truthy_opt (o : option string) : bool :=
  match o with Some s => truthy s | None => false end.

(** [str(x)] / [f"{x}"] for an [Optional[str]]. *)
Definition format_opt (o : option string) : string :=
  match o with Some s => s | None => "None" end.

(** [c not in s] *)
Fixpoint lacks (c : ascii) (s : string) : Prop :=
  match s with
  | EmptyString => True
  | String a s' => a ≠ c ∧ lacks c s'
  end.

End PyStr.

(** ** Pattern normalisation of the GET adapter *)

(** [{p.strip() for p in s.split(',') if p.strip()}] *)
Definition pattern_set (s : string) : gset string :=
  list_to_set
    (PyStr.strip <$> filter (λ p, PyStr.strip p ≠ "") (PyStr.split "," s)).

(** [x_set = None; if x: x_set = {...}] *)
Definition parse_patterns (o : option string) : option (gset string) :=
  match o with
  | Some s => if PyStr.truthy s then Some (pattern_set s) else None
  | None => None
  end.

(** A pattern in canonical form: trimmed, not empty, without a comma. *)
Definition canonical_pattern (p : string) : Prop :=
  PyStr.strip p = p ∧ p ≠ "" ∧ PyStr.lacks "," p.

(** ** Exceptions and the handler monad *)

(** The exception classes the router tells apart.  [ValueError] stands for
    the class and its subclasses (pydantic's [ValidationError] is one),
    [Exception] for every other subclass of [Exception], [BaseException]
    for what lies outside [Exception] (cancellation, interrupts). *)
Inductive exn : Type :=
| ValueError (msg : string)
| HTTPException (status_code : Z) (detail : string)
| Exception (msg : string)
| BaseException (msg : string).

(** [str(e)]; an [HTTPException] prints as ["{status_code}: {detail}"]. *)
Definition str (e : exn) : string :=
  match e with
  | ValueError msg | Exception msg | BaseException msg => msg
  | HTTPException c d => pretty c +:+ ": " +:+ d
  end.

Inductive res (A : Type) : Type :=
| Ok (a : A)
| Raise (e : exn).
Arguments Ok {A} a.
Arguments Raise {A} e.

(** Computations over a state [Σ] that return or raise. *)
Definition M (Σ A : Type) : Type := Σ → res A * Σ.

Global Instance M_ret {Σ} : MRet (M Σ) := λ A a s, (Ok a, s).
Global Instance M_bind {Σ} : MBind (M Σ) := λ A B f m s,
  match m s with
  | (Ok a, s') => f a s'
  | (Raise e, s') => (Raise e, s')
  end.

Definition raise {Σ A} (e : exn) : M Σ A := λ s, (Raise e, s).

(** [try: body / except ... as e: handler e]; a [handler] re-raises what
    no clause catches. *)
Definition try_except {Σ A} (body : M Σ A) (handler : exn → M Σ A) : M Σ A :=
  λ s, match body s with
       | (Ok a, s') => (Ok a, s')
       | (Raise e, s') => handler e s'
       end.

(** ** Data model *)

Record IngestRequest : Type := {
  source : string;
  max_file_size : option Z;
  include_patterns : option (gset string);
  exclude_patterns : option (gset string);
  branch : option string;
}.

Record IngestResponse : Type := {
  success : bool;
  data : option (gmap string string);
  error : option string;
  metadata : option (gmap string string);
}.

(** Modelled from the spec: the class [IngestionQuery] of
    [gitingest.query_parsing], declared outside the router.  Its fields
    are those of the resolved query of the specification, which are the
    ones the router reads or writes: an optional url, user name and
    repository name, the slug, an optional branch, the subpath; what else
    the resolver stores in the query (patterns, size limit, local path)
    is carried by [query_rest]. *)
Record IngestionQuery (Rest : Type) : Type := {
  query_url : option string;
  query_user_name : option string;
  query_repo_name : option string;
  query_slug : string;
  query_branch : option string;
  query_subpath : string;
  query_rest : Rest;
}.
Arguments query_url {Rest} _.
Arguments query_user_name {Rest} _.
Arguments query_repo_name {Rest} _.
Arguments query_slug {Rest} _.
Arguments query_branch {Rest} _.
Arguments query_subpath {Rest} _.
Arguments query_rest {Rest} _.

(** [query.branch = b] *)
Definition set_branch {Rest} (q : IngestionQuery Rest) (b : option string)
  : IngestionQuery Rest :=
  {| query_url := query_url q; query_user_name := query_user_name q;
     query_repo_name := query_repo_name q; query_slug := query_slug q;
     query_branch := b; query_subpath := query_subpath q;
     query_rest := query_rest q |}.

(** Field constraints of [IngestRequest]: [ge=1024], [le=100 * 1024 * 1024]
    on [max_file_size]; [source] is a required [str] with no further
    constraint. *)
Definition max_file_size_ge : Z := 1024.
Definition max_file_size_le : Z := 100 * 1024 * 1024.
Definition max_file_size_default : Z := 10 * 1024 * 1024.

Definition max_file_size_ok (o : option Z) : bool :=
  match o with
  | Some n => (max_file_size_ge <=? n) && (n <=? max_file_size_le)
  | None => true
  end.

(** [IngestRequest(source=.., max_file_size=.., ..)]: pydantic validates the
    fields and raises [ValidationError], a [ValueError], on a violation. *)
Definition IngestRequest_validate (src : string) (mfs : option Z)
    (inc exc : option (gset string)) (br : option string) : res IngestRequest :=
  if max_file_size_ok mfs then
    Ok {| source := src; max_file_size := mfs; include_patterns := inc;
          exclude_patterns := exc; branch := br |}
  else Raise (ValueError "1 validation error for IngestRequest: max_file_size").

Definition IngestRequest_init {Σ} (src : string) (mfs : option Z)
    (inc exc : option (gset string)) (br : option string)
  : M Σ IngestRequest :=
  λ s, (IngestRequest_validate src mfs inc exc br, s).

(** ** HTTP requests and responses *)

Inductive ApiRequest : Type :=
| PostIngest (src : string) (mfs : option Z)
    (inc exc : option (gset string)) (br : option string)
| GetIngest (src : string) (mfs : option Z)
    (inc exc : option string) (br : option string)
| GetIngestSummary (src : string) (br : option string)
| GetHealth.

Inductive HttpBody : Type :=
| JsonIngest (r : IngestResponse)
| JsonDict (d : gmap string string)
| JsonDetail (detail : string).

Record HttpResponse : Type := {
  status : Z;
  payload : HttpBody;
}.

(** A limit string such as ["5/minute"]: so many requests per so many
    seconds. *)
Record RateLimit : Type := {
  amount : nat;
  per_seconds : Z;
}.

(** The decorators [@limiter.limit("5/minute")] (both /ingest routes) and
    [@limiter.limit("10/minute")] (/ingest/summary), by handler name;
    /health carries none. *)
Definition route_limit (r : ApiRequest) : option (string * RateLimit) :=
  match r with
  | PostIngest _ _ _ _ _ =>
      Some ("ingest_repository", {| amount := 5; per_seconds := 60 |})
  | GetIngest _ _ _ _ _ =>
      Some ("ingest_repository_get", {| amount := 5; per_seconds := 60 |})
  | GetIngestSummary _ _ =>
      Some ("get_repository_summary", {| amount := 10; per_seconds := 60 |})
  | GetHealth => None
  end.

(** Modelled from the spec: the status of a rate-limit rejection, which the
    specification only asks to be distinct from those of the other
    outcomes; 429 (Too Many Requests) is taken for it. *)
Definition rate_limit_status : Z := 429.

(** ** The router over its collaborators *)

Section Router.

(** The world outside the process (network, file system), the clone
    configuration and the rest of the query are the collaborators'
    business. *)
Context {World CloneConfig Rest : Type}.

Abbreviation Query := (IngestionQuery Rest).

(** Calls into [gitingest], in the order they happen. *)
Inductive Event : Type :=
| EvParseQuery (src : string) (mfs : option Z) (from_web : bool)
    (inc ign : option (gset string))
| EvExtractCloneConfig (q : Query)
| EvCloneRepo (cfg : CloneConfig)
| EvIngestQuery (q : Query).

(** Per-process state: the world, the log of collaborator calls, and the
    rate limiter's storage (admission times per client and route). *)
Record St : Type := {
  world : World;
  trace : list Event;
  hits : gmap (string * string) (list Z);
}.

(** [parse_query(source, max_file_size, from_web, include_patterns,
    ignore_patterns)] *)
Context (parse_query :
  string → option Z → bool → option (gset string) → option (gset string) →
  World → res Query * World).
(** [query.extract_clone_config()] *)
Context (extract_clone_config : Query → World → res CloneConfig * World).
(** [clone_repo(config)] *)
Context (clone_repo : CloneConfig → World → res () * World).
(** [ingest_query(query)], returning [(summary, tree, content)] *)
Context (ingest_query : Query → World → res (string * string * string) * World).

(** A collaborator call: logged, then run against the world. *)
Definition call {A} (ev : Event) (f : World → res A * World) : M St A :=
  λ s, let '(r, w) := f (world s) in
       (r, {| world := w; trace := trace s ++ [ev]; hits := hits s |}).

(** POST /ingest *)
Definition ingest_repository (body : IngestRequest) : M St IngestResponse :=
  try_except
    (query ← call (EvParseQuery (source body) (max_file_size body) true
                     (include_patterns body) (exclude_patterns body))
               (parse_query (source body) (max_file_size body) true
                  (include_patterns body) (exclude_patterns body));
     let query :=
       if PyStr.truthy_opt (branch body) then set_branch query (branch body)
       else query in
     _ ← (if PyStr.truthy_opt (query_url query) then
            clone_config ← call (EvExtractCloneConfig query)
                              (extract_clone_config query);
            call (EvCloneRepo clone_config) (clone_repo clone_config)
          else mret ());
     '(summary, tree, content) ← call (EvIngestQuery query) (ingest_query query);
     let metadata : gmap string string :=
       {[ "source_type" :=
            if PyStr.truthy_opt (query_url query) then "remote" else "local";
          "repository" :=
            if PyStr.truthy_opt (query_user_name query)
            then PyStr.format_opt (query_user_name query) +:+ "/"
                 +:+ PyStr.format_opt (query_repo_name query)
            else query_slug query;
          "branch" :=
            if PyStr.truthy_opt (query_branch query)
            then PyStr.format_opt (query_branch query) else "default";
          "subpath" := query_subpath query ]} in
     mret {| success := true;
             data := Some {[ "summary" := summary; "tree" := tree;
                             "content" := content ]};
             error := None;
             metadata := Some metadata |})
    (λ e, match e with
          | ValueError _ => raise (HTTPException 400 (str e))
          | HTTPException _ _ | Exception _ =>
              mret {| success := false; data := None;
                      error := Some (str e); metadata := None |}
          | BaseException _ => raise e
          end).

(** GET /ingest *)
Definition ingest_repository_get (src : string) (mfs : option Z)
    (inc exc : option string) (br : option string) : M St IngestResponse :=
  let include_set := parse_patterns inc in
  let exclude_set := parse_patterns exc in
  body ← IngestRequest_init src mfs include_set exclude_set br;
  ingest_repository body.

(** [d[k]] and [d.get(k, dflt)] on an [Optional[Dict[str, str]]]. *)
Definition subscript (d : option (gmap string string)) (k : string)
  : M St string :=
  match d with
  | None => raise (Exception "'NoneType' object is not subscriptable")
  | Some m =>
      match m !! k with
      | Some v => mret v
      | None => raise (Exception ("'" +:+ k +:+ "'"))
      end
  end.

Definition get_or (d : option (gmap string string)) (k dflt : string)
  : M St string :=
  match d with
  | None => raise (Exception "'NoneType' object has no attribute 'get'")
  | Some m => mret (default dflt (m !! k))
  end.

(** GET /ingest/summary.  A [detail] of [None] is replaced by the phrase
    of the status. *)
Definition get_repository_summary (src : string) (br : option string)
  : M St (gmap string string) :=
  try_except
    (body ← IngestRequest_init src (Some max_file_size_default) None None br;
     response ← ingest_repository body;
     if negb (success response) then
       raise (HTTPException 400 (default "Bad Request" (error response)))
     else
       summary ← subscript (data response) "summary";
       repository ← get_or (metadata response) "repository" "";
       branch' ← get_or (metadata response) "branch" "";
       mret ({[ "source" := src; "summary" := summary;
                "repository" := repository; "branch" := branch' ]}
             : gmap string string))
    (λ e, match e with
          | HTTPException _ _ => raise e
          | ValueError _ | Exception _ => raise (HTTPException 500 (str e))
          | BaseException _ => raise e
          end).

(** GET /health *)
Definition api_health_check : M St (gmap string string) :=
  mret {[ "status" := "healthy"; "service" := "gitingest-api" ]}.

(** Modelled from the spec: the [limiter] object of [server.server_utils]
    and its rejection handler.  The spec keeps one counter per (client
    identity, route) over a rolling window and rejects a request over the
    threshold before any pipeline stage runs, with a status of its own.
    Here the storage holds the admission times of each (client, route);
    a request at [now] is admissions when fewer than [amount] of them lie in
    the last [per_seconds] seconds. *)
Definition recent (per : Z) (now : Z) (l : list Z) : list Z :=
  filter (λ t, now - per < t) l.

Definition limit {A} (route : string) (rl : RateLimit) (client : string)
    (now : Z) (handler : M St A) : M St A :=
  λ s, let seen := recent (per_seconds rl) now
                     (default [] (hits s !! (client, route))) in
       if decide (amount rl ≤ length seen)%nat then
         (Raise (HTTPException rate_limit_status "Rate limit exceeded"), s)
       else
         handler {| world := world s; trace := trace s;
                    hits := <[(client, route) := now :: seen]> (hits s) |}.

(** What the framework answers for the outcome of a handler: the returned
    value as a 200, an [HTTPException] with its status and detail, any
    other exception as a 500. *)
Definition respond {A} (wrap : A → HttpBody) (m : M St A)
  : St → HttpResponse * St :=
  λ s, match m s with
       | (Ok a, s') => ({| status := 200; payload := wrap a |}, s')
       | (Raise (HTTPException c d), s') =>
           ({| status := c; payload := JsonDetail d |}, s')
       | (Raise _, s') =>
           ({| status := 500; payload := JsonDetail "Internal Server Error" |}, s')
       end.

(** The handler behind the limit of its route, if it has one. *)
Definition metered {A} (r : ApiRequest) (client : string) (now : Z)
    (handler : M St A) : M St A :=
  match route_limit r with
  | Some (route, rl) => limit route rl client now handler
  | None => handler
  end.

(** One request of [client] arriving at time [now].  The body of a POST is
    validated against [IngestRequest] before the decorated handler is
    entered; a violation is answered 422. *)
Definition serve (client : string) (now : Z) (r : ApiRequest)
  : St → HttpResponse * St :=
  match r with
  | PostIngest src mfs inc exc br =>
      match IngestRequest_validate src mfs inc exc br with
      | Ok body =>
          respond JsonIngest (metered r client now (ingest_repository body))
      | Raise e =>
          λ s, ({| status := 422; payload := JsonDetail (str e) |}, s)
      end
  | GetIngest src mfs inc exc br =>
      respond JsonIngest
        (metered r client now (ingest_repository_get src mfs inc exc br))
  | GetIngestSummary src br =>
      respond JsonDict (metered r client now (get_repository_summary src br))
  | GetHealth => respond JsonDict (metered r client now api_health_check)
  end.

(** Requests served one after the other. *)
Fixpoint serve_all (client : string) (rs : list (Z * ApiRequest)) (s : St)
  : list HttpResponse * St :=
  match rs with
  | [] => ([], s)
  | (now, r) :: rs' =>
      let '(a, s') := serve client now r s in
      let '(l, s'') := serve_all client rs' s' in
      (a :: l, s'')
  end.

(** *** Stages of one request, as relations on the world *)

(** The query after the branch override. *)
Definition effective_query (body : IngestRequest) (q0 : Query) : Query :=
  if PyStr.truthy_opt (branch body) then set_branch q0 (branch body) else q0.

(** Resolution returns [q0] and leaves the world [w']. *)
Definition resolved (body : IngestRequest) (w : World) (q0 : Query)
    (w' : World) : Prop :=
  parse_query (source body) (max_file_size body) true
    (include_patterns body) (exclude_patterns body) w = (Ok q0, w').

(** Resolution raises [e]. *)
Definition resolution_fails (body : IngestRequest) (w : World) (e : exn)
  : Prop :=
  ∃ w', parse_query (source body) (max_file_size body) true
          (include_patterns body) (exclude_patterns body) w = (Raise e, w').

(** Acquisition completes: nothing to do for a query without url, a
    configuration derived and cloned otherwise. *)
Definition acquired (q : Query) (w w' : World) : Prop :=
  if PyStr.truthy_opt (query_url q) then
    ∃ cfg w1, extract_clone_config q w = (Ok cfg, w1) ∧
              clone_repo cfg w1 = (Ok (), w')
  else w' = w.

(** Acquisition raises [e], while deriving the configuration or while
    cloning. *)
Definition acquisition_fails (q : Query) (w : World) (e : exn) : Prop :=
  PyStr.truthy_opt (query_url q) = true ∧
  ((∃ w', extract_clone_config q w = (Raise e, w')) ∨
   (∃ cfg w1 w', extract_clone_config q w = (Ok cfg, w1) ∧
                 clone_repo cfg w1 = (Raise e, w'))).

(** Ingestion raises [e]. *)
Definition ingestion_fails (q : Query) (w : World) (e : exn) : Prop :=
  ∃ w', ingest_query q w = (Raise e, w').

(** A collaborator call of the clone step. *)
Definition clone_event (ev : Event) : bool :=
  match ev with
  | EvExtractCloneConfig _ | EvCloneRepo _ => true
  | _ => false
  end.

(** Number of admissions of [client] on [route] still in the window at
    [now]. *)
Definition admissions (rl : RateLimit) (client route : string) (now : Z)
    (s : St) : nat :=
  length (recent (per_seconds rl) now (default [] (hits s !! (client, route)))).

(** A computation that works on the world only: it appends its calls to
    the log and leaves the limiter's storage alone. *)
Definition framed {A} (m : M St A) : Prop :=
  ∀ w, ∃ r w' evs, ∀ t h,
    m {| world := w; trace := t; hits := h |}
    = (r, {| world := w'; trace := t ++ evs; hits := h |}).

End Router.

(** ** Collaborators with fixed answers

    As the test suite does with its mocks: every collaborator returns a
    given value or raises a given exception, and the world has no
    content. *)

Definition mock_parse_query (r : res (IngestionQuery ()))
  : string → option Z → bool → option (gset string) → option (gset string) →
    () → res (IngestionQuery ()) * () :=
  λ _ _ _ _ _ w, (r, w).

Definition mock_extract_clone_config (r : res string)
  : IngestionQuery () → () → res string * () :=
  λ _ w, (r, w).

Definition mock_clone_repo (r : res ()) : string → () → res () * () :=
  λ _ w, (r, w).

Definition mock_ingest_query (r : res (string * string * string))
  : IngestionQuery () → () → res (string * string * string) * () :=
  λ _ w, (r, w).

(** The resolved queries of the tests: a remote repository and a local
    directory. *)
Definition remote_query : IngestionQuery () :=
  {| query_url := Some "https://github.com/test/repo";
     query_user_name := Some "test"; query_repo_name := Some "repo";
     query_slug := "test-repo"; query_branch := Some "main";
     query_subpath := "/"; query_rest := () |}.

Definition local_query : IngestionQuery () :=
  {| query_url := None; query_user_name := None; query_repo_name := None;
     query_slug := "local-project"; query_branch := None;
     query_subpath := "/"; query_rest := () |}.

Definition triple : string * string * string :=
  ("Repository: test/repo", "tree...", "content...").

(** A server that has not seen any request. *)
Definition boot : @St () string () :=
  {| world := (); trace := []; hits := ∅ |}.

(** A resolver that keeps the include patterns it is given in the query,
    and an ingestion of a directory holding the one file main.py: the file
    is listed when the pattern "*.py" is among the include patterns as
    they reached the resolver, or when there is no include filter. *)
Definition keeping_parse_query
  : string → option Z → bool → option (gset string) → option (gset string) →
    () → res (IngestionQuery (option (gset string))) * () :=
  λ src _ _ inc _ w,
    (Ok {| query_url := None; query_user_name := None;
           query_repo_name := None; query_slug := src; query_branch := None;
           query_subpath := "/"; query_rest := inc |}, w).

Definition filtering_ingest_query
  : IngestionQuery (option (gset string)) → () →
    res (string * string * string) * () :=
  λ q w,
    (Ok (match query_rest q with
         | Some X => if decide ("*.py" ∈ X)
                     then ("Files analyzed: 1", "main.py", "FILE: main.py")
                     else ("Files analyzed: 0", "", "")
         | None => ("Files analyzed: 1", "main.py", "FILE: main.py")
         end), w).

Definition keeping_extract_clone_config
  : IngestionQuery (option (gset string)) → () → res string * () :=
  λ _ w, (Ok "cfg", w).

(** A server over these collaborators that has not seen any request. *)
Definition fresh : @St () string (option (gset string)) :=
  {| world := (); trace := []; hits := ∅ |}.

(** The POST handler on a fresh server, over collaborators with the given
    answers. *)
Definition mock_post (q : res (IngestionQuery ())) (cl : res ())
    (ing : res (string * string * string)) (body : IngestRequest)
  : res IngestResponse * @St () string () :=
  ingest_repository (mock_parse_query q) (mock_extract_clone_config (Ok "cfg"))
    (mock_clone_repo cl) (mock_ingest_query ing) body boot.

(** The requests of the tests. *)
Definition remote_request : IngestRequest :=
  {| source := "https://github.com/test/repo"; max_file_size := Some 1048576;
     include_patterns := Some {[ "*.py" ]}; exclude_patterns := None;
     branch := Some "main" |}.

Definition local_request : IngestRequest :=
  {| source := "/path/to/local/project"; max_file_size := Some 1048576;
     include_patterns := None; exclude_patterns := None; branch := None |}.

(** ** Reference definitions for the statements *)

(** The failure envelope. *)
Definition failure_envelope (msg : string) : IngestResponse :=
  {| success := false; data := None; error := Some msg; metadata := None |}.

(** The success envelope. *)
Definition success_envelope (summary tree content : string)
    (meta : gmap string string) : IngestResponse :=
  {| success := true;
     data := Some {[ "summary" := summary; "tree" := tree;
                     "content" := content ]};
     error := None; metadata := Some meta |}.

(** An exception of class [Exception] that is no [ValueError]. *)
Definition ordinary (e : exn) : Prop :=
  match e with
  | HTTPException _ _ | Exception _ => True
  | ValueError _ | BaseException _ => False
  end.

(** What the [except] clauses of [ingest_repository] make of an exception:
    a 400 of a [ValueError], the failure envelope of any other
    [Exception]; anything else passes through. *)
Definition failure_outcome (e : exn) : res IngestResponse :=
  match e with
  | ValueError _ => Raise (HTTPException 400 (str e))
  | HTTPException _ _ | Exception _ => Ok (failure_envelope (str e))
  | BaseException _ => Raise e
  end.

(** The repository identifier in the words of the specification:
    ["{user_name}/{repo_name}"] when both are present, the slug otherwise. *)
Definition spec_repository {Rest} (q : IngestionQuery Rest) : string :=
  if PyStr.truthy_opt (query_user_name q) && PyStr.truthy_opt (query_repo_name q)
  then PyStr.format_opt (query_user_name q) +:+ "/"
       +:+ PyStr.format_opt (query_repo_name q)
  else query_slug q.

(** The identifier as the handler computes it: it looks at [user_name]
    only. *)
Definition code_repository {Rest} (q : IngestionQuery Rest) : string :=
  if PyStr.truthy_opt (query_user_name q)
  then PyStr.format_opt (query_user_name q) +:+ "/"
       +:+ PyStr.format_opt (query_repo_name q)
  else query_slug q.

Definition source_type_of {Rest} (q : IngestionQuery Rest) : string :=
  if PyStr.truthy_opt (query_url q) then "remote" else "local".

Definition branch_or_default (b : option string) : string :=
  if PyStr.truthy_opt b then PyStr.format_opt b else "default".

(** The invariant of a resolved query in the data model of the
    specification: the user name and the repository name are there exactly
    when the url is. *)
Definition data_model_query {Rest} (q : IngestionQuery Rest) : Prop :=
  PyStr.truthy_opt (query_user_name q) = PyStr.truthy_opt (query_url q) ∧
  PyStr.truthy_opt (query_repo_name q) = PyStr.truthy_opt (query_url q).

(** The pattern set of the specification, for a native collection: every
    entry trimmed, the entries that are empty after trimming dropped; and
    for a delimited string: that of its comma-separated pieces. *)
Definition spec_pattern_set (X : gset string) : gset string :=
  list_to_set
    (PyStr.strip <$> filter (λ p, PyStr.strip p ≠ "") (elements X)).

Definition spec_pattern_set_of_string (s : string) : gset string :=
  spec_pattern_set (list_to_set (PyStr.split "," s)).

(** The filter string a GET request carries, if any: a missing parameter
    and the empty string stand for no filter. *)
Definition sent_filter (o : option string) : option string :=
  match o with
  | Some s => if PyStr.truthy s then Some s else None
  | None => None
  end.

(** A GET parameter and a POST field that are the same filter after
    normalisation: both absent, or both there with the same pattern set of
    the specification. *)
Definition spec_equal_filter (sent : option string)
    (posted : option (gset string)) : Prop :=
  match sent_filter sent, posted with
  | None, None => True
  | Some s, Some X => spec_pattern_set X = spec_pattern_set_of_string s
  | _, _ => False
  end.

(** A POST field that is the GET parameter in normal form: absent with it,
    and otherwise its pattern set itself. *)
Definition spec_normalised_filter (sent : option string)
    (posted : option (gset string)) : Prop :=
  posted = spec_pattern_set_of_string <$> sent_filter sent.

(** The metadata of the specification. *)
Definition spec_metadata {Rest} (q : IngestionQuery Rest) : gmap string string :=
  {[ "source_type" := source_type_of q; "repository" := spec_repository q;
     "branch" := branch_or_default (query_branch q);
     "subpath" := query_subpath q ]}.

(** Shape of a response: exactly one of data and error, by the flag;
    metadata with data; data with its three parts. *)
Definition well_formed (r : IngestResponse) : Prop :=
  if success r then
    (∃ summary tree content,
        data r = Some {[ "summary" := summary; "tree" := tree;
                         "content" := content ]})
    ∧ error r = None ∧ is_Some (metadata r)
  else data r = None ∧ is_Some (error r) ∧ metadata r = None.

(** A request that gets as far as its decorated handler: the body of a
    POST has passed validation. *)
Definition reaches_handler (r : ApiRequest) : bool :=
  match r with
  | PostIngest _ mfs _ _ _ => max_file_size_ok mfs
  | _ => true
  end.

(** The answer to a request over the limit. *)
Definition too_many_requests : HttpResponse :=
  {| status := rate_limit_status; payload := JsonDetail "Rate limit exceeded" |}.

(** The request the summary endpoint builds. *)
Definition summary_body (src : string) (br : option string) : IngestRequest :=
  {| source := src; max_file_size := Some max_file_size_default;
     include_patterns := None; exclude_patterns := None; branch := br |}.

(** ** The log of one run *)

(** The calls a run from [s] to [s'] has added to the log. *)
Definition appended {World CloneConfig Rest}
    (s s' : @St World CloneConfig Rest) : list Event :=
  drop (length (trace s)) (trace s').

(** The collaborator an event is a call of. *)
Definition event_kind {CloneConfig Rest} (ev : @Event CloneConfig Rest) : nat :=
  match ev with
  | EvParseQuery _ _ _ _ _ => 0
  | EvExtractCloneConfig _ => 1
  | EvCloneRepo _ => 2
  | EvIngestQuery _ => 3
  end%nat.

Section Pipeline.

Context {World CloneConfig Rest : Type}.
Context (parse_query :
  string → option Z → bool → option (gset string) → option (gset string) →
  World → res (IngestionQuery Rest) * World).
Context (extract_clone_config :
  IngestionQuery Rest → World → res CloneConfig * World).
Context (clone_repo : CloneConfig → World → res () * World).
Context (ingest_query :
  IngestionQuery Rest → World → res (string * string * string) * World).

(** Some stage of the pipeline raises [e]: resolution, or acquisition
    after resolution, or ingestion after both. *)
Definition pipeline_fails (body : IngestRequest) (w : World) (e : exn) : Prop :=
  resolution_fails parse_query body w e ∨
  ∃ q0 w1,
    resolved parse_query body w q0 w1 ∧
    (acquisition_fails extract_clone_config clone_repo
       (effective_query body q0) w1 e ∨
     ∃ w2, acquired extract_clone_config clone_repo
             (effective_query body q0) w1 w2 ∧
           ingestion_fails ingest_query (effective_query body q0) w2 e).

(** The exception the first failing stage raises, if a stage fails. *)
Definition first_failure (body : IngestRequest) (w : World) : option exn :=
  match parse_query (source body) (max_file_size body) true
          (include_patterns body) (exclude_patterns body) w with
  | (Raise e, _) => Some e
  | (Ok q0, w1) =>
      let q := effective_query body q0 in
      if PyStr.truthy_opt (query_url q) then
        match extract_clone_config q w1 with
        | (Raise e, _) => Some e
        | (Ok cfg, w2) =>
            match clone_repo cfg w2 with
            | (Raise e, _) => Some e
            | (Ok _, w3) =>
                match ingest_query q w3 with
                | (Raise e, _) => Some e
                | (Ok _, _) => None
                end
            end
        end
      else
        match ingest_query q w1 with
        | (Raise e, _) => Some e
        | (Ok _, _) => None
        end
  end.

(** The log of a run of [ingest_repository], read off the answers of the
    collaborators. *)
Definition expected_calls (body : IngestRequest) (w : World) : list Event :=
  let parse_ev :=
    EvParseQuery (source body) (max_file_size body) true
      (include_patterns body) (exclude_patterns body) in
  match parse_query (source body) (max_file_size body) true
          (include_patterns body) (exclude_patterns body) w with
  | (Raise _, _) => [parse_ev]
  | (Ok q0, w1) =>
      let q := effective_query body q0 in
      if PyStr.truthy_opt (query_url q) then
        match extract_clone_config q w1 with
        | (Raise _, _) => [parse_ev; EvExtractCloneConfig q]
        | (Ok cfg, w2) =>
            match clone_repo cfg w2 with
            | (Raise _, _) =>
                [parse_ev; EvExtractCloneConfig q; EvCloneRepo cfg]
            | (Ok _, _) =>
                [parse_ev; EvExtractCloneConfig q; EvCloneRepo cfg;
                 EvIngestQuery q]
            end
        end
      else [parse_ev; EvIngestQuery q]
  end.

End Pipeline.

(** ** The example client ([examples/api_usage_examples.py])

    What [GitingestAPIClient] puts into a request.  A dictionary of the
    client is a record of its possible entries, [None] for a key that is
    not set. *)

Record Payload (P : Type) : Type := {
  p_source : string;
  p_max_file_size : option Z;
  p_include_patterns : option P;
  p_exclude_patterns : option P;
  p_branch : option string;
}.
Arguments p_source {P} _.
Arguments p_max_file_size {P} _.
Arguments p_include_patterns {P} _.
Arguments p_exclude_patterns {P} _.
Arguments p_branch {P} _.

(** Truth value of an [Optional[list]]. *)
Definition truthy_list {A} (o : option (list A)) : bool :=
  match o with
  | Some (_ :: _) => true
  | _ => false
  end.

(** The [data] of [_ingest_post]: the source always, the size when it is
    not [None], the pattern lists and the branch when they are truthy. *)
Definition _ingest_post_data (src : string) (mfs : option Z)
    (inc exc : option (list string)) (br : option string)
  : Payload (list string) :=
  {| p_source := src;
     p_max_file_size := mfs;
     p_include_patterns := if truthy_list inc then inc else None;
     p_exclude_patterns := if truthy_list exc then exc else None;
     p_branch := if PyStr.truthy_opt br then br else None |}.

(** The [params] of [_ingest_get]: as above, the pattern lists joined by
    commas. *)
Definition _ingest_get_params (src : string) (mfs : option Z)
    (inc exc : option (list string)) (br : option string)
  : Payload string :=
  {| p_source := src;
     p_max_file_size := mfs;
     p_include_patterns :=
       if truthy_list inc then PyStr.join "," <$> inc else None;
     p_exclude_patterns :=
       if truthy_list exc then PyStr.join "," <$> exc else None;
     p_branch := if PyStr.truthy_opt br then br else None |}.

(** A size as it reaches a handler: a key that was not sent takes the
    default of the field, respectively of the parameter. *)
Definition arrived_size (o : option Z) : option Z :=
  Some (default max_file_size_default o).

(** The fields of the [IngestRequest] read from the JSON body of a POST: a
    list of patterns is read as a set, a missing key takes the default of
    its field. *)
Definition posted_body (d : Payload (list string)) : IngestRequest :=
  {| source := p_source d;
     max_file_size := arrived_size (p_max_file_size d);
     include_patterns := list_to_set <$> p_include_patterns d;
     exclude_patterns := list_to_set <$> p_exclude_patterns d;
     branch := p_branch d |}.

(** * Properties *)

(** ** Strings *)

Module PyStrFacts.
Import PyStr.

Lemma lstrip_idem s : lstrip (lstrip s) = lstrip s.
Proof.
  induction s as [|a s IH]; simpl; [done|].
  destruct (isspace a) eqn:Ha; [done|]. simpl. by rewrite Ha.
Qed.

Lemma rstrip_cons a s :
  rstrip (String a s) =
  if decide (rstrip s = "") then (if isspace a then "" else String a "")
  else String a (rstrip s).
Proof. simpl. by destruct (rstrip s). Qed.

Lemma rstrip_idem s : rstrip (rstrip s) = rstrip s.
Proof.
  induction s as [|a s IH]; [done|].
  rewrite rstrip_cons. case_decide as Hr.
  - destruct (isspace a) eqn:Ha; [done|].
    rewrite rstrip_cons. simpl. by rewrite Ha.
  - rewrite rstrip_cons, IH. by rewrite decide_False.
Qed.

(** Trimming on the left keeps a string that is trimmed on the right so. *)
Lemma rstrip_lstrip s : rstrip s = s → rstrip (lstrip s) = lstrip s.
Proof.
  induction s as [|a s IH]; [done|].
  intros H. simpl. destruct (isspace a) eqn:Ha; [|done].
  apply IH. rewrite rstrip_cons in H. case_decide as Hr.
  - rewrite Ha in H. discriminate.
  - by injection H.
Qed.

Lemma strip_idem s : strip (strip s) = strip s.
Proof.
  unfold strip.
  rewrite (rstrip_lstrip (rstrip s)) by apply rstrip_idem.
  apply lstrip_idem.
Qed.

Lemma lacks_lstrip c s : lacks c s → lacks c (lstrip s).
Proof.
  induction s as [|a s IH]; [done|]. simpl.
  intros [Ha Hs]. destruct (isspace a); [by apply IH | by split].
Qed.

Lemma lacks_rstrip c s : lacks c s → lacks c (rstrip s).
Proof.
  induction s as [|a s IH]; [done|].
  intros [Ha Hs]. rewrite rstrip_cons. case_decide.
  - by destruct (isspace a).
  - split; [done | by apply IH].
Qed.

Lemma lacks_strip c s : lacks c s → lacks c (strip s).
Proof. intros H. by apply lacks_lstrip, lacks_rstrip. Qed.

Lemma split_nonempty c s : split c s ≠ [].
Proof.
  destruct s as [|a s]; simpl; [done|].
  case_decide; [done|]. by destruct (split c s).
Qed.

(** No piece of a split contains the separator. *)
Lemma split_lacks c s : Forall (lacks c) (split c s).
Proof.
  induction s as [|a s IH]; simpl.
  - by repeat constructor.
  - case_decide as Ha.
    + by constructor.
    + destruct (split c s) as [|t ts]; [by repeat constructor|].
      inversion IH; subst. by repeat constructor.
Qed.

Lemma split_lacking c s : lacks c s → split c s = [s].
Proof.
  induction s as [|a s IH]; [done|].
  intros [Ha Hs]. simpl. rewrite decide_False by done. by rewrite IH.
Qed.

Lemma split_app c t s :
  lacks c t → split c (t +:+ String c s) = t :: split c s.
Proof.
  induction t as [|a t IH]; simpl.
  - intros _. by rewrite decide_True.
  - intros [Ha Ht]. rewrite decide_False by done. by rewrite IH.
Qed.

(** Splitting undoes joining, for pieces free of the separator. *)
Lemma split_join c l :
  l ≠ [] → Forall (lacks c) l → split c (join (String c "") l) = l.
Proof.
  induction l as [|t ts IH]; [done|].
  intros _ Hl. inversion Hl as [|? ? Ht Hts]; subst.
  destruct ts as [|t' ts'].
  - simpl. by apply split_lacking.
  - change (join (String c "") (t :: t' :: ts'))
      with (t +:+ String c (join (String c "") (t' :: ts'))).
    rewrite split_app by done. by rewrite IH.
Qed.

Lemma join_nonempty sep l :
  l ≠ [] → Forall (λ p, p ≠ "") l → join sep l ≠ "".
Proof.
  intros Hne Hl. destruct l as [|t ts]; [done|].
  inversion Hl as [|? ? Ht _]; subst.
  destruct t as [|a t]; [done|]. by destruct ts.
Qed.

End PyStrFacts.

(** ** Pattern normalisation *)

Lemma elem_of_pattern_set s p :
  p ∈ pattern_set s ↔ ∃ t, t ∈ PyStr.split "," s ∧ PyStr.strip t = p ∧ p ≠ "".
Proof.
  unfold pattern_set. rewrite elem_of_list_to_set, list_elem_of_fmap.
  split.
  - intros (t & -> & Ht). apply list_elem_of_filter in Ht as [Hne Ht]. eauto.
  - intros (t & Ht & <- & Hne). exists t. split; [done|].
    apply list_elem_of_filter. done.
Qed.

Lemma pattern_set_canonical s p : p ∈ pattern_set s → canonical_pattern p.
Proof.
  rewrite elem_of_pattern_set. intros (t & Ht & <- & Hne).
  split; [apply PyStrFacts.strip_idem | split; [done|]].
  apply PyStrFacts.lacks_strip.
  pose proof (PyStrFacts.split_lacks "," s) as Hall.
  rewrite Forall_forall in Hall. by apply Hall.
Qed.

Lemma elem_of_spec_pattern_set (X : gset string) p :
  p ∈ spec_pattern_set X ↔ ∃ t, t ∈ X ∧ PyStr.strip t = p ∧ p ≠ "".
Proof.
  unfold spec_pattern_set. rewrite elem_of_list_to_set, list_elem_of_fmap.
  split.
  - intros (t & -> & Ht). apply list_elem_of_filter in Ht as [Hne Ht].
    exists t. by rewrite <- elem_of_elements.
  - intros (t & Ht & <- & Hne). exists t. split; [done|].
    apply list_elem_of_filter. by rewrite elem_of_elements.
Qed.

(** The normaliser of the adapter computes the pattern set of the
    specification. *)
Lemma pattern_set_spec s : pattern_set s = spec_pattern_set_of_string s.
Proof.
  apply set_eq. intros p.
  rewrite elem_of_pattern_set. unfold spec_pattern_set_of_string.
  rewrite elem_of_spec_pattern_set.
  split; intros (t & Ht & H); exists t; (split; [|done]).
  - by apply elem_of_list_to_set.
  - by apply elem_of_list_to_set in Ht.
Qed.

Lemma parse_patterns_spec o :
  parse_patterns o = spec_pattern_set_of_string <$> sent_filter o.
Proof.
  destruct o as [s|]; [|done]. unfold parse_patterns, sent_filter.
  destruct (PyStr.truthy s); [|done]. simpl. by rewrite pattern_set_spec.
Qed.

(** Canonical patterns, joined by commas, normalise to themselves. *)
Lemma pattern_set_join (l : list string) :
  Forall canonical_pattern l → pattern_set (PyStr.join "," l) = list_to_set l.
Proof.
  intros Hl. unfold pattern_set.
  destruct (decide (l = [])) as [-> | Hne]; [done|].
  rewrite PyStrFacts.split_join; [|done|].
  - f_equal. clear Hne. induction Hl as [|p l [Hp [Hp' _]] Hl IH]; [done|].
    rewrite filter_cons_True by (by rewrite Hp).
    rewrite fmap_cons, Hp. by f_equal.
  - eapply Forall_impl; [exact Hl|]. by intros p (_ & _ & ?).
Qed.

(** C7: the normaliser of the GET adapter splits at commas, trims every
    piece, drops the pieces that are empty after trimming and collects the
    rest in a set; it is idempotent: a set of canonical patterns, sent as a
    comma-separated string, is returned unchanged, and so is every result
    of the normaliser; the adapter, which normalises non-empty strings
    only, returns every non-empty canonical set unchanged; the two strings
    of the test suite normalise to their three and two patterns. *)
Theorem C7_pattern_normalisation :
  (∀ s p, p ∈ pattern_set s ↔
          ∃ t, t ∈ PyStr.split "," s ∧ PyStr.strip t = p ∧ p ≠ "") ∧
  (∀ X : gset string,
      (∀ p, p ∈ X → canonical_pattern p) →
      pattern_set (PyStr.join "," (elements X)) = X) ∧
  (∀ s, pattern_set (PyStr.join "," (elements (pattern_set s)))
        = pattern_set s) ∧
  (∀ X : gset string,
      X ≠ ∅ → (∀ p, p ∈ X → canonical_pattern p) →
      parse_patterns (Some (PyStr.join "," (elements X))) = Some X) ∧
  parse_patterns (Some "*.py, *.md, *.txt")
    = Some {[ "*.py"; "*.md"; "*.txt" ]} ∧
  parse_patterns (Some "*.log,  *.tmp ") = Some {[ "*.log"; "*.tmp" ]}.
Proof.
  assert (Hcanon : ∀ X : gset string,
             (∀ p, p ∈ X → canonical_pattern p) →
             pattern_set (PyStr.join "," (elements X)) = X).
  { intros X HX. rewrite pattern_set_join.
    - apply list_to_set_elements_L.
    - apply Forall_forall. intros p Hp. apply HX. by apply elem_of_elements. }
  split; [exact elem_of_pattern_set|].
  split; [exact Hcanon|].
  split; [intros s; apply Hcanon, pattern_set_canonical|].
  split.
  { intros X Hne HX. unfold parse_patterns, PyStr.truthy.
    rewrite bool_decide_true; [by rewrite Hcanon|].
    apply PyStrFacts.join_nonempty.
    - intros Hnil. by apply elements_empty_inv, leibniz_equiv in Hnil.
    - apply Forall_forall. intros p Hp. apply elem_of_elements in Hp.
      by destruct (HX p Hp) as (_ & ? & _). }
  split; vm_compute; reflexivity.
Qed.

Lemma C7_witness :
  pattern_set (PyStr.join "," (elements ({[ "*.py"; "src/*" ]} : gset string)))
  = {[ "*.py"; "src/*" ]}.
Proof.
  apply (proj1 (proj2 C7_pattern_normalisation)).
  intros p Hp.
  apply elem_of_union in Hp as [Hp | Hp]; apply elem_of_singleton in Hp;
    subst p; (split; [reflexivity | split; [discriminate | simpl; intuition discriminate]]).
Defined.

(** ** The handlers *)

Section RouterFacts.

Context {World CloneConfig Rest : Type}.
Context (parse_query :
  string → option Z → bool → option (gset string) → option (gset string) →
  World → res (IngestionQuery Rest) * World).
Context (extract_clone_config :
  IngestionQuery Rest → World → res CloneConfig * World).
Context (clone_repo : CloneConfig → World → res () * World).
Context (ingest_query :
  IngestionQuery Rest → World → res (string * string * string) * World).

Abbreviation State := (@St World CloneConfig Rest).
Abbreviation post := (ingest_repository parse_query extract_clone_config
                        clone_repo ingest_query).
Abbreviation get := (ingest_repository_get parse_query extract_clone_config
                       clone_repo ingest_query).
Abbreviation summary_of := (get_repository_summary parse_query
                              extract_clone_config clone_repo ingest_query).
Abbreviation served := (serve parse_query extract_clone_config clone_repo
                          ingest_query).

(** *** Framing *)

Lemma framed_ret {A} (a : A) : framed (mret a : M State A).
Proof. intros w. exists (Ok a), w, []. intros t h. by rewrite app_nil_r. Qed.

Lemma framed_raise {A} e : framed (raise e : M State A).
Proof. intros w. exists (Raise e), w, []. intros t h. by rewrite app_nil_r. Qed.

Lemma framed_call {A} ev (f : World → res A * World) :
  framed (call ev f : M State A).
Proof.
  intros w. destruct (f w) as [r w'] eqn:Hf. exists r, w', [ev].
  intros t h. unfold call. simpl. by rewrite Hf.
Qed.

Lemma framed_bind {A B} (m : M State A) (k : A → M State B) :
  framed m → (∀ a, framed (k a)) → framed (m ≫= k).
Proof.
  intros Hm Hk w. destruct (Hm w) as (r & w1 & evs1 & H1).
  destruct r as [a | e].
  - destruct (Hk a w1) as (r2 & w2 & evs2 & H2).
    exists r2, w2, (evs1 ++ evs2). intros t h.
    unfold mbind, M_bind. rewrite H1, H2. by rewrite app_assoc.
  - exists (Raise e), w1, evs1. intros t h.
    unfold mbind, M_bind. by rewrite H1.
Qed.

Lemma framed_try {A} (m : M State A) (k : exn → M State A) :
  framed m → (∀ e, framed (k e)) → framed (try_except m k).
Proof.
  intros Hm Hk w. destruct (Hm w) as (r & w1 & evs1 & H1).
  destruct r as [a | e].
  - exists (Ok a), w1, evs1. intros t h. unfold try_except. by rewrite H1.
  - destruct (Hk e w1) as (r2 & w2 & evs2 & H2).
    exists r2, w2, (evs1 ++ evs2). intros t h.
    unfold try_except. rewrite H1, H2. by rewrite app_assoc.
Qed.

Lemma framed_init src mfs inc exc br :
  framed (IngestRequest_init src mfs inc exc br : M State IngestRequest).
Proof.
  intros w. exists (IngestRequest_validate src mfs inc exc br), w, [].
  intros t h. unfold IngestRequest_init. by rewrite app_nil_r.
Qed.

Create HintDb framing.
Local Hint Resolve framed_ret framed_raise framed_call framed_init : framing.

Lemma framed_post body : framed (post body).
Proof.
  unfold ingest_repository. apply framed_try.
  - apply framed_bind; [auto with framing|]. intros q0.
    apply framed_bind.
    + destruct (PyStr.truthy_opt _); [|auto with framing].
      apply framed_bind; auto with framing.
    + intros _. apply framed_bind; [auto with framing|].
      intros [[? ?] ?]. auto with framing.
  - intros []; auto with framing.
Qed.

Lemma framed_get src mfs inc exc br : framed (get src mfs inc exc br).
Proof.
  unfold ingest_repository_get.
  apply framed_bind; [auto with framing | apply framed_post].
Qed.

Lemma framed_summary src br : framed (summary_of src br).
Proof.
  unfold get_repository_summary. apply framed_try.
  - apply framed_bind; [auto with framing|]. intros body.
    apply framed_bind; [apply framed_post|]. intros r.
    destruct (negb (success r)); [auto with framing|].
    assert (Hsub : ∀ d k, framed (subscript d k : M State string)).
    { intros [m|] k; unfold subscript; [destruct (m !! k)|]; auto with framing. }
    assert (Hget : ∀ d k v, framed (get_or d k v : M State string)).
    { intros [m|] k v; unfold get_or; auto with framing. }
    repeat (apply framed_bind; [done|intros ?]). auto with framing.
  - intros []; auto with framing.
Qed.

(** *** One run of [ingest_repository], stage by stage *)

Ltac run :=
  unfold ingest_repository, try_except, mbind, M_bind, call, mret, M_ret,
    raise; simpl.

Lemma effective_query_url body (q0 : IngestionQuery Rest) :
  query_url (effective_query body q0) = query_url q0.
Proof. unfold effective_query. by destruct (PyStr.truthy_opt (branch body)). Qed.

Lemma post_resolution_fails body (s : State) e :
  resolution_fails parse_query body (world s) e →
  fst (post body s) = failure_outcome e ∧
  trace (snd (post body s))
  = trace s ++ [EvParseQuery (source body) (max_file_size body) true
                  (include_patterns body) (exclude_patterns body)].
Proof.
  intros [w' H]. run. rewrite H. by destruct e.
Qed.

Lemma post_acquisition_fails body (s : State) q0 w1 e :
  resolved parse_query body (world s) q0 w1 →
  acquisition_fails extract_clone_config clone_repo
    (effective_query body q0) w1 e →
  fst (post body s) = failure_outcome e.
Proof.
  unfold resolved, effective_query.
  intros H [Hurl [[w' He] | (cfg & w2 & w' & Hc & He)]]; run; rewrite H;
    fold (effective_query body q0) in *; rewrite Hurl; simpl.
  - rewrite He. by destruct e.
  - rewrite Hc. simpl. rewrite He. by destruct e.
Qed.

(** After resolution and acquisition the handler is at the ingestion
    call. *)
Lemma post_at_ingestion body (s : State) q0 w1 w2 :
  resolved parse_query body (world s) q0 w1 →
  acquired extract_clone_config clone_repo (effective_query body q0) w1 w2 →
  ∃ evs,
    post body s =
    (let q := effective_query body q0 in
     match fst (ingest_query q w2) with
     | Ok (summary, tree, content) =>
         (Ok (success_envelope summary tree content
                {[ "source_type" := source_type_of q;
                   "repository" := code_repository q;
                   "branch" := branch_or_default (query_branch q);
                   "subpath" := query_subpath q ]}),
          {| world := snd (ingest_query q w2);
             trace := trace s ++ evs ++ [EvIngestQuery q]; hits := hits s |})
     | Raise e =>
         (failure_outcome e,
          {| world := snd (ingest_query q w2);
             trace := trace s ++ evs ++ [EvIngestQuery q]; hits := hits s |})
     end) ∧
    (PyStr.truthy_opt (query_url (effective_query body q0)) = false →
     evs = [EvParseQuery (source body) (max_file_size body) true
              (include_patterns body) (exclude_patterns body)]).
Proof.
  unfold resolved, acquired.
  intros H Hacq.
  destruct (PyStr.truthy_opt (query_url (effective_query body q0))) eqn:Hurl.
  - destruct Hacq as (cfg & w' & Hc & Hcl).
    exists [EvParseQuery (source body) (max_file_size body) true
              (include_patterns body) (exclude_patterns body);
            EvExtractCloneConfig (effective_query body q0);
            EvCloneRepo cfg].
    split; [|done].
    run. rewrite H. fold (effective_query body q0). rewrite Hurl. simpl.
    rewrite Hc. simpl. rewrite Hcl. simpl.
    destruct (ingest_query (effective_query body q0) w2) as [[[[a b] c] | e] w3];
      simpl; rewrite <- !app_assoc; simpl;
      [ unfold success_envelope, source_type_of, code_repository,
          branch_or_default; by rewrite Hurl
      | by destruct e ].
  - subst w2.
    exists [EvParseQuery (source body) (max_file_size body) true
              (include_patterns body) (exclude_patterns body)].
    split; [|done].
    run. rewrite H. fold (effective_query body q0). rewrite Hurl. simpl.
    destruct (ingest_query (effective_query body q0) w1) as [[[[a b] c] | e] w3];
      simpl; rewrite <- !app_assoc; simpl;
      [ unfold success_envelope, source_type_of, code_repository,
          branch_or_default; by rewrite Hurl
      | by destruct e ].
Qed.

(** Every outcome of [ingest_repository] is what the [except] clauses make
    of an exception, or the success envelope. *)
Lemma post_outcome body (s : State) :
  (∃ e, fst (post body s) = failure_outcome e) ∨
  (∃ summary tree content meta,
      fst (post body s) = Ok (success_envelope summary tree content meta)).
Proof.
  destruct (parse_query (source body) (max_file_size body) true
              (include_patterns body) (exclude_patterns body) (world s))
    as [[q0 | e] w1] eqn:Hp.
  2: { left. exists e. apply post_resolution_fails. by exists w1. }
  set (q := effective_query body q0).
  assert (Hcases : (∃ e, acquisition_fails extract_clone_config clone_repo q w1 e)
                   ∨ ∃ w2, acquired extract_clone_config clone_repo q w1 w2).
  { unfold acquisition_fails, acquired.
    destruct (PyStr.truthy_opt (query_url q)); [|right; by exists w1].
    destruct (extract_clone_config q w1) as [[cfg | e] w'] eqn:He.
    2: { left. exists e. split; [done|]. left. by exists w'. }
    destruct (clone_repo cfg w') as [[[] | e] w2] eqn:Hc.
    - right. exists w2, cfg, w'. done.
    - left. exists e. split; [done|]. right. by exists cfg, w', w2. }
  destruct Hcases as [[e He] | [w2 Hacq]].
  - left. exists e. by eapply post_acquisition_fails.
  - destruct (post_at_ingestion body s q0 w1 w2 Hp Hacq) as (evs & -> & _).
    cbv zeta. fold q.
    destruct (ingest_query q w2) as [[[[a b] c] | e] w3]; simpl.
    + right. eexists a, b, c, _. reflexivity.
    + left. by exists e.
Qed.

(** A request refused by the field constraints never enters the GET
    handler's pipeline. *)
Lemma get_validation_fails src mfs inc exc br (s : State) :
  max_file_size_ok mfs = false →
  ∃ msg, get src mfs inc exc br s = (Raise (ValueError msg), s).
Proof.
  intros H. eexists. unfold ingest_repository_get, IngestRequest_init,
    IngestRequest_validate, mbind, M_bind. by rewrite H.
Qed.

(** The GET handler hands a valid request over to the POST handler. *)
Lemma get_delegates src mfs inc exc br (s : State) :
  max_file_size_ok mfs = true →
  get src mfs inc exc br s
  = post {| source := src; max_file_size := mfs;
            include_patterns := parse_patterns inc;
            exclude_patterns := parse_patterns exc; branch := br |} s.
Proof.
  intros Hok. unfold ingest_repository_get, IngestRequest_init,
    IngestRequest_validate, mbind, M_bind. by rewrite Hok.
Qed.

Lemma branch_or_default_cases (o : option string) :
  branch_or_default o
  = match o with
    | Some b => if decide (b = "") then "default" else b
    | None => "default"
    end.
Proof.
  unfold branch_or_default, PyStr.truthy_opt, PyStr.truthy.
  destruct o as [b|]; [|done].
  destruct (decide (b = "")) as [-> | Hne]; [done|].
  by rewrite bool_decide_true.
Qed.

(** The response of a run in which every stage succeeds. *)
Lemma post_success body (s : State) q0 w1 w2 w3 summary tree content :
  resolved parse_query body (world s) q0 w1 →
  acquired extract_clone_config clone_repo (effective_query body q0) w1 w2 →
  ingest_query (effective_query body q0) w2 = (Ok (summary, tree, content), w3) →
  fst (post body s)
  = Ok (success_envelope summary tree content
          {[ "source_type" := source_type_of (effective_query body q0);
             "repository" := code_repository (effective_query body q0);
             "branch" := branch_or_default
                           (query_branch (effective_query body q0));
             "subpath" := query_subpath (effective_query body q0) ]}).
Proof.
  intros Hr Ha Hi.
  destruct (post_at_ingestion body s q0 w1 w2 Hr Ha) as (evs & -> & _).
  cbv zeta. by rewrite Hi.
Qed.

(** ** Properties of the endpoints *)

(** C1, as the handlers have it: for a size within the bounds, a GET
    request and a POST request with the same source, size and branch, in
    which each pattern set of the POST body is the pattern set of the
    specification of the GET parameter (the trimmed non-empty
    comma-separated pieces; absent when the parameter is missing or
    empty), are handled alike: same outcome and same effects; and as long
    as the client is under the limit of both routes, the two routes answer
    with the same status and payload.  The POST handler passes its pattern
    sets on as they are. *)
Theorem C1_get_agrees_with_normalised_post src mfs inc exc X Y br client now
    (s : State) :
  max_file_size_ok mfs = true →
  spec_normalised_filter inc X → spec_normalised_filter exc Y →
  let body := {| source := src; max_file_size := mfs;
                 include_patterns := X; exclude_patterns := Y;
                 branch := br |} in
  let per_minute := {| amount := 5; per_seconds := 60 |} in
  get src mfs inc exc br s = post body s ∧
  ((admissions per_minute client "ingest_repository_get" now s < 5)%nat →
   (admissions per_minute client "ingest_repository" now s < 5)%nat →
   fst (served client now (GetIngest src mfs inc exc br) s)
   = fst (served client now (PostIngest src mfs X Y br) s)).
Proof.
  intros Hok HX HY body per_minute.
  unfold spec_normalised_filter in HX, HY.
  assert (Hdel : ∀ s0 : State, get src mfs inc exc br s0 = post body s0).
  { intros s0. rewrite get_delegates by done.
    unfold body. by rewrite !parse_patterns_spec, HX, HY. }
  split; [apply Hdel|].
  subst per_minute. unfold admissions. simpl. intros Hg Hp.
  unfold serve, IngestRequest_validate. rewrite Hok.
  unfold respond, metered, route_limit, limit. simpl.
  rewrite !decide_False by lia.
  rewrite Hdel.
  destruct (framed_post body (world s)) as (r & w' & evs & Hrun).
  fold body. rewrite !Hrun. by destruct r as [? | []].
Qed.

(** C3, as the handler has it: a [ValueError] of the resolver is answered
    with a 400 whose detail is the message, and so is a [ValueError] of the
    clone step or of ingestion; every other failure of class [Exception] in
    the clone step or in ingestion comes back as the failure envelope with
    the message as error. *)
Theorem C3_failures_by_class body (s : State) :
  (∀ msg, resolution_fails parse_query body (world s) (ValueError msg) →
          fst (post body s) = Raise (HTTPException 400 msg)) ∧
  (∀ q0 w1 e,
      resolved parse_query body (world s) q0 w1 →
      acquisition_fails extract_clone_config clone_repo
        (effective_query body q0) w1 e →
      (ordinary e → fst (post body s) = Ok (failure_envelope (str e))) ∧
      (∀ msg, e = ValueError msg →
              fst (post body s) = Raise (HTTPException 400 msg))) ∧
  (∀ q0 w1 w2 e,
      resolved parse_query body (world s) q0 w1 →
      acquired extract_clone_config clone_repo (effective_query body q0) w1 w2 →
      ingestion_fails ingest_query (effective_query body q0) w2 e →
      (ordinary e → fst (post body s) = Ok (failure_envelope (str e))) ∧
      (∀ msg, e = ValueError msg →
              fst (post body s) = Raise (HTTPException 400 msg))).
Proof.
  assert (Hcls : ∀ e, fst (post body s) = failure_outcome e →
            (ordinary e → fst (post body s) = Ok (failure_envelope (str e))) ∧
            (∀ msg, e = ValueError msg →
                    fst (post body s) = Raise (HTTPException 400 msg))).
  { intros e ->. split.
    - by destruct e.
    - by intros msg ->. }
  split; [|split].
  - intros msg H. by apply post_resolution_fails in H as [-> _].
  - intros q0 w1 e Hr Ha. apply Hcls. by eapply post_acquisition_fails.
  - intros q0 w1 w2 e Hr Ha [w3 Hi]. apply Hcls.
    destruct (post_at_ingestion body s q0 w1 w2 Hr Ha) as (evs & -> & _).
    cbv zeta. by rewrite Hi.
Qed.

(** C4: when resolution, acquisition and ingestion succeed, for a resolved
    query of the data model (user name and repository name there exactly
    when the url is), the response is the success envelope and its
    metadata are read off the resolved query after the branch override:
    source_type is "remote" for a query with a url and "local" otherwise;
    repository is "{user_name}/{repo_name}" when both are there and the
    slug otherwise; branch is the branch of the query or "default" when it
    has none; subpath is its subpath. *)
Theorem C4_metadata_of_resolved_query body (s : State) q0 w1 w2 w3
    summary tree content :
  let q := effective_query body q0 in
  resolved parse_query body (world s) q0 w1 →
  acquired extract_clone_config clone_repo q w1 w2 →
  ingest_query q w2 = (Ok (summary, tree, content), w3) →
  data_model_query q0 →
  let meta : gmap string string :=
    {[ "source_type" :=
         if PyStr.truthy_opt (query_url q) then "remote" else "local";
       "repository" :=
         match query_user_name q, query_repo_name q with
         | Some user_name, Some repo_name =>
             if decide (user_name = "" ∨ repo_name = "") then query_slug q
             else user_name +:+ "/" +:+ repo_name
         | _, _ => query_slug q
         end;
       "branch" :=
         match query_branch q with
         | Some b => if decide (b = "") then "default" else b
         | None => "default"
         end;
       "subpath" := query_subpath q ]} in
  fst (post body s) = Ok (success_envelope summary tree content meta) ∧
  meta = spec_metadata q.
Proof.
  intros q Hr Ha Hi [Hu Hn] meta.
  rewrite (post_success body s q0 w1 w2 w3 summary tree content Hr Ha Hi).
  fold q. pose proof (branch_or_default_cases (query_branch q)) as Hb.
  assert (Hpair : PyStr.truthy_opt (query_user_name q)
                  = PyStr.truthy_opt (query_repo_name q)).
  { unfold q, effective_query.
    destruct (PyStr.truthy_opt (branch body)); simpl; congruence. }
  assert (Hrep : code_repository q
                 = match query_user_name q, query_repo_name q with
                   | Some user_name, Some repo_name =>
                       if decide (user_name = "" ∨ repo_name = "")
                       then query_slug q
                       else user_name +:+ "/" +:+ repo_name
                   | _, _ => query_slug q
                   end).
  { unfold code_repository. revert Hpair.
    unfold PyStr.truthy_opt, PyStr.truthy.
    destruct (query_user_name q) as [u|], (query_repo_name q) as [n|]; simpl;
      repeat case_bool_decide; try case_decide; try done;
      exfalso; intuition congruence. }
  assert (Hspec : spec_repository q = code_repository q).
  { unfold spec_repository, code_repository. rewrite <- Hpair.
    by destruct (PyStr.truthy_opt (query_user_name q)). }
  split.
  - unfold meta, source_type_of. by rewrite Hb, Hrep.
  - unfold meta, spec_metadata, source_type_of.
    by rewrite Hb, Hspec, Hrep.
Qed.

(** C5: every response the POST and the GET handler return carries data
    (summary, tree and content, all three) and metadata and no error when
    the flag is set, and an error and neither data nor metadata when it is
    not; so metadata is there exactly on success. *)
Theorem C5_response_shape body src mfs inc exc br (s : State) r :
  fst (post body s) = Ok r ∨ fst (get src mfs inc exc br s) = Ok r →
  well_formed r ∧ (is_Some (metadata r) ↔ success r = true)
  ∧ (is_Some (data r) ↔ success r = true)
  ∧ (is_Some (error r) ↔ success r = false).
Proof.
  assert (Hpost : ∀ b (s0 : State), fst (post b s0) = Ok r → well_formed r).
  { intros b s0 H. destruct (post_outcome b s0) as [[e He] | (x & y & z & m & He)];
      rewrite He in H.
    - destruct e; simplify_eq/=. all: by repeat split.
    - simplify_eq/=. split; [by exists x, y, z | by split]. }
  intros H. assert (Hwf : well_formed r).
  { destruct H as [H | H]; [by eapply Hpost|].
    destruct (max_file_size_ok mfs) eqn:Hok.
    - eapply Hpost. erewrite <- (get_delegates src mfs inc exc br s Hok).
      exact H.
    - destruct (get_validation_fails src mfs inc exc br s Hok) as [msg Hm].
      rewrite Hm in H. discriminate. }
  split; [done|]. unfold well_formed in Hwf.
  destruct (success r).
  - destruct Hwf as ((x & y & z & ->) & -> & Hm).
    repeat split; try done. all: by intros [? ?].
  - destruct Hwf as (-> & He & ->).
    repeat split; try done. all: by intros [? ?].
Qed.

(** C6: when the resolved query has no url, the run consists of the call
    of the resolver followed by the call of ingestion: neither the clone
    configuration is derived nor the clone collaborator called. *)
Theorem C6_local_source_is_not_cloned body (s : State) q0 w1 :
  resolved parse_query body (world s) q0 w1 →
  PyStr.truthy_opt (query_url q0) = false →
  trace (snd (post body s))
  = trace s ++ [EvParseQuery (source body) (max_file_size body) true
                  (include_patterns body) (exclude_patterns body);
                EvIngestQuery (effective_query body q0)]
  ∧ ∃ evs, trace (snd (post body s)) = trace s ++ evs
           ∧ Forall (λ ev, clone_event ev = false) evs.
Proof.
  intros Hr Hurl.
  assert (Hurl' : PyStr.truthy_opt (query_url (effective_query body q0)) = false)
    by by rewrite effective_query_url.
  assert (Ha : acquired extract_clone_config clone_repo
                 (effective_query body q0) w1 w1).
  { unfold acquired. by rewrite Hurl'. }
  destruct (post_at_ingestion body s q0 w1 w1 Hr Ha) as (evs & -> & Hevs).
  rewrite (Hevs Hurl'). simpl.
  destruct (ingest_query (effective_query body q0) w1) as [[[[a b] c] | e] w3];
    simpl; (split; [done|]); eexists; (split; [done|]); by repeat constructor.
Qed.

(** C10: a request without branch, or with the empty string as branch,
    leaves the query of the resolver as it is, so that the metadata report
    the resolver's branch, or "default" when it has none; a non-empty
    branch replaces the resolver's. *)
Theorem C10_branch_override body (s : State) q0 w1 w2 w3 summary tree content :
  resolved parse_query body (world s) q0 w1 →
  acquired extract_clone_config clone_repo (effective_query body q0) w1 w2 →
  ingest_query (effective_query body q0) w2 = (Ok (summary, tree, content), w3) →
  ∃ r, fst (post body s) = Ok r ∧
    (branch body = None ∨ branch body = Some "" →
     effective_query body q0 = q0 ∧
     metadata r ≫= (.!! "branch")
     = Some (match query_branch q0 with
             | Some b => if decide (b = "") then "default" else b
             | None => "default"
             end)) ∧
    (∀ b, branch body = Some b → b ≠ "" →
          query_branch (effective_query body q0) = Some b ∧
          metadata r ≫= (.!! "branch") = Some b).
Proof.
  intros Hr Ha Hi.
  pose proof (post_success body s q0 w1 w2 w3 summary tree content Hr Ha Hi)
    as Hpost.
  eexists. split; [exact Hpost|]. simpl.
  rewrite branch_or_default_cases. split.
  - intros Hb. assert (Heq : effective_query body q0 = q0).
    { unfold effective_query. by destruct Hb as [-> | ->]. }
    rewrite Heq. split; [done|]. by simplify_map_eq.
  - intros b Hb Hne.
    assert (Heq : effective_query body q0 = set_branch q0 (Some b)).
    { unfold effective_query. rewrite Hb. simpl. unfold PyStr.truthy.
      by rewrite bool_decide_true. }
    rewrite Heq. simpl. split; [done|]. simplify_map_eq.
    done.
Qed.

(** C8: when the full pipeline succeeds on the request the summary
    endpoint builds, the endpoint returns the dictionary with the four keys
    source, summary, repository and branch and nothing else, the source as
    given and the other three read from the full response; when the full
    response reports a failure, or the full handler raises, the endpoint
    raises: a 400 carrying the error text in the first case, the same
    exception in the second; it returns a summary in no other case. *)
Theorem C8_summary_view src br (s : State) :
  (∀ r s', post (summary_body src br) s = (Ok r, s') → success r = true →
     ∃ d meta summary,
       data r = Some d ∧ metadata r = Some meta ∧ d !! "summary" = Some summary ∧
       let view : gmap string string :=
         {[ "source" := src; "summary" := summary;
            "repository" := default "" (meta !! "repository");
            "branch" := default "" (meta !! "branch") ]} in
       summary_of src br s = (Ok view, s') ∧
       dom view = {[ "source"; "summary"; "repository"; "branch" ]} ∧
       view !! "tree" = None ∧ view !! "content" = None) ∧
  (∀ r s', post (summary_body src br) s = (Ok r, s') → success r = false →
     ∃ msg, error r = Some msg ∧
            summary_of src br s = (Raise (HTTPException 400 msg), s')) ∧
  (∀ e s', post (summary_body src br) s = (Raise e, s') →
           summary_of src br s = (Raise e, s')) ∧
  (∀ view, fst (summary_of src br s) = Ok view →
           ∃ r, fst (post (summary_body src br) s) = Ok r ∧ success r = true).
Proof.
  assert (Hrun : summary_of src br s =
    match post (summary_body src br) s with
    | (Ok r, s') =>
        if negb (success r) then
          (Raise (HTTPException 400 (default "Bad Request" (error r))), s')
        else
          try_except
            (summary ← subscript (data r) "summary";
             repository ← get_or (metadata r) "repository" "";
             branch' ← get_or (metadata r) "branch" "";
             mret ({[ "source" := src; "summary" := summary;
                      "repository" := repository; "branch" := branch' ]}
                   : gmap string string))
            (λ e, match e with
                  | HTTPException _ _ => raise e
                  | ValueError _ | Exception _ =>
                      raise (HTTPException 500 (str e))
                  | BaseException _ => raise e
                  end) s'
    | (Raise e, s') =>
        match e with
        | HTTPException _ _ | BaseException _ => (Raise e, s')
        | ValueError _ | Exception _ => (Raise (HTTPException 500 (str e)), s')
        end
    end).
  { unfold get_repository_summary, try_except, IngestRequest_init,
      IngestRequest_validate, mbind, M_bind. simpl.
    fold (summary_body src br).
    destruct (post (summary_body src br) s) as [[r | e] s']; simpl.
    - by destruct (success r).
    - by destruct e. }
  pose proof (post_outcome (summary_body src br) s) as Hout.
  split; [|split; [|split]].
  - intros r s' Hp Hs. rewrite Hp in Hout. simpl in Hout.
    destruct Hout as [[e He] | (a & b & c & meta & He)].
    { destruct e; simplify_eq/=. }
    simplify_eq/=. eexists _, meta, a.
    split; [reflexivity|]. split; [reflexivity|].
    split; [by simplify_map_eq|]. cbv zeta. split; [|split; [|split]].
    + rewrite Hrun, Hp. simpl.
      unfold try_except, mbind, M_bind, subscript, get_or, mret, M_ret.
      by simplify_map_eq.
    + rewrite !dom_insert_L, dom_singleton_L. set_solver.
    + by simplify_map_eq.
    + by simplify_map_eq.
  - intros r s' Hp Hs. rewrite Hp in Hout. simpl in Hout.
    destruct Hout as [[e He] | (a & b & c & meta & He)].
    + exists (str e). rewrite Hrun, Hp.
      destruct e; simplify_eq/=; done.
    + simplify_eq/=.
  - intros e s' Hp. rewrite Hp in Hout. simpl in Hout. rewrite Hrun, Hp.
    destruct Hout as [[e0 He] | (a & b & c & meta & He)]; [|done].
    destruct e0; simplify_eq/=; done.
  - intros view Hv. rewrite Hrun in Hv.
    destruct (post (summary_body src br) s) as [[r | e] s']; simpl in *.
    + exists r. split; [done|]. by destruct (success r).
    + by destruct e.
Qed.

(** C2, where the code departs from it: a request with the empty string as
    source and a size within the bounds passes validation on both routes
    and reaches the resolver; a GET request with a size outside the bounds
    is stopped before any collaborator is called, but by an exception that
    nothing catches, answered as a 500. *)
Theorem C2_empty_source_reaches_resolver client now (w : World) :
  let s : State := {| world := w; trace := []; hits := ∅ |} in
  let answer r :=
    serve parse_query extract_clone_config clone_repo ingest_query
      client now r s in
  (∃ evs, trace (snd (answer (PostIngest "" (Some 1048576) None None None)))
          = EvParseQuery "" (Some 1048576) true None None :: evs) ∧
  (∃ evs, trace (snd (answer (GetIngest "" (Some 1048576) None None None)))
          = EvParseQuery "" (Some 1048576) true None None :: evs) ∧
  (∀ src inc exc br,
      max_file_size_ok (Some 500) = false ∧
      status (fst (answer (GetIngest src (Some 500) inc exc br))) = 500 ∧
      trace (snd (answer (GetIngest src (Some 500) inc exc br))) = []).
Proof.
  intros s answer. subst answer. cbv beta.
  assert (Htr : ∀ body (s0 : State),
            trace s0 = [] →
            ∃ evs, trace (snd (respond JsonIngest (post body) s0))
                   = EvParseQuery (source body) (max_file_size body) true
                       (include_patterns body) (exclude_patterns body) :: evs).
  { intros body s0 Hs0. unfold respond.
    destruct (post body s0) as [r s1] eqn:Hrun.
    assert (∃ evs, trace s1
                   = EvParseQuery (source body) (max_file_size body) true
                       (include_patterns body) (exclude_patterns body) :: evs)
      as [evs Hevs].
    { revert Hrun. run. rewrite Hs0. simpl.
      destruct (parse_query _ _ _ _ _ _) as [[q0 | e] w1]; simpl.
      - destruct (PyStr.truthy_opt (query_url _)); simpl.
        + destruct (extract_clone_config _ _) as [[cfg | e] w2]; simpl.
          * destruct (clone_repo _ _) as [[[] | e] w3]; simpl.
            -- destruct (ingest_query _ _) as [[[[a b] c] | e] w4]; simpl;
                 [|destruct e]; intros [= <- <-]; eauto.
            -- destruct e; intros [= <- <-]; eauto.
          * destruct e; intros [= <- <-]; eauto.
        + destruct (ingest_query _ _) as [[[[a b] c] | e] w4]; simpl;
            [|destruct e]; intros [= <- <-]; eauto.
      - destruct e; intros [= <- <-]; eauto. }
    exists evs. by destruct r as [? | []]. }
  split; [|split].
  - unfold serve, IngestRequest_validate, metered, limit. simpl.
    apply (Htr {| source := ""; max_file_size := Some 1048576;
                  include_patterns := None; exclude_patterns := None;
                  branch := None |}). done.
  - unfold serve, metered, limit. simpl.
    unfold respond at 1.
    rewrite get_delegates by done. simpl.
    apply (Htr {| source := ""; max_file_size := Some 1048576;
                  include_patterns := None; exclude_patterns := None;
                  branch := None |}). done.
  - intros src inc exc br. split; [done|].
    unfold serve, metered, limit, respond. simpl.
    edestruct (get_validation_fails src (Some 500) inc exc br) as [msg ->];
      done.
Qed.

(** A POST with a size outside the bounds is answered 422 with nothing
    run. *)
Lemma post_size_refused client now src mfs inc exc br (s : State) :
  max_file_size_ok mfs = false →
  ∃ detail, served client now (PostIngest src mfs inc exc br) s
            = ({| status := 422; payload := JsonDetail detail |}, s).
Proof.
  intros H. unfold serve, IngestRequest_validate. rewrite H. by eexists.
Qed.

(** *** The rate limit *)

Lemma recent_all per now t (l : list Z) :
  Forall (λ x, now - per < x) l → t ≤ now → recent per t l = l.
Proof.
  intros Hl Ht. unfold recent. induction Hl as [|x l Hx Hl IH]; [done|].
  rewrite filter_cons_True by lia. by rewrite IH.
Qed.

(** Every request that reaches its handler runs a framed computation
    behind the limit of its route. *)
Lemma serve_metered client now r :
  reaches_handler r = true →
  ∃ (A : Type) (wrap : A → HttpBody) (h : M State A),
    framed h ∧ served client now r = respond wrap (metered r client now h).
Proof.
  destruct r as [src mfs inc exc br | src mfs inc exc br | src br |]; simpl;
    intros Hok.
  - unfold serve, IngestRequest_validate. rewrite Hok.
    eexists _, JsonIngest, _. split; [apply framed_post | done].
  - eexists _, JsonIngest, _. split; [apply framed_get | done].
  - eexists _, JsonDict, _. split; [apply framed_summary | done].
  - eexists _, JsonDict, _. split; [apply framed_ret | done].
Qed.

Lemma serve_over_limit client now r route rl (s : State) :
  route_limit r = Some (route, rl) → reaches_handler r = true →
  (amount rl ≤ admissions rl client route now s)%nat →
  served client now r s = (too_many_requests, s).
Proof.
  intros Hr Hok Hfull.
  destruct (serve_metered client now r Hok) as (A & wrap & h & _ & ->).
  unfold respond, metered, limit. rewrite Hr.
  unfold admissions in Hfull. by rewrite decide_True.
Qed.

Lemma serve_under_limit client now r route rl (s : State) :
  route_limit r = Some (route, rl) → reaches_handler r = true →
  (admissions rl client route now s < amount rl)%nat →
  hits (snd (served client now r s))
  = <[(client, route) :=
        now :: recent (per_seconds rl) now
                 (default [] (hits s !! (client, route)))]> (hits s).
Proof.
  intros Hr Hok Hfree.
  destruct (serve_metered client now r Hok) as (A & wrap & h & Hh & ->).
  unfold respond, metered, limit. rewrite Hr.
  unfold admissions in Hfree. rewrite decide_False by lia.
  destruct (Hh (world s)) as (x & w' & evs & ->).
  by destruct x as [? | []].
Qed.

(** Requests of one route inside the window fill the storage up to the
    limit. *)
Lemma serve_all_fills client now route rl rs : ∀ s : State,
  (∀ t r, (t, r) ∈ rs →
          route_limit r = Some (route, rl) ∧ reaches_handler r = true ∧
          now - per_seconds rl < t ≤ now) →
  Forall (λ x, now - per_seconds rl < x)
    (default [] (hits s !! (client, route))) →
  let s' := snd (serve_all parse_query extract_clone_config clone_repo
                   ingest_query client rs s) in
  Forall (λ x, now - per_seconds rl < x)
    (default [] (hits s' !! (client, route))) ∧
  (min (length rs + length (default [] (hits s !! (client, route))))
       (amount rl)
   ≤ length (default [] (hits s' !! (client, route))))%nat.
Proof.
  induction rs as [|[t r] rs IH]; intros s Hrs Hs; cbv zeta.
  { simpl. split; [done | lia]. }
  rewrite length_cons. cbn [serve_all].
  destruct (Hrs t r) as (Hr & Hok & Ht); [by left|].
  assert (Hrs' : ∀ t' r', (t', r') ∈ rs →
            route_limit r' = Some (route, rl) ∧ reaches_handler r' = true ∧
            now - per_seconds rl < t' ≤ now).
  { intros t' r' Hin. apply Hrs. by right. }
  assert (Hadm : admissions rl client route t s
                 = length (default [] (hits s !! (client, route)))).
  { unfold admissions. rewrite (recent_all _ now) by (done || lia). done. }
  destruct (served client t r s) as [a s1] eqn:Hserve.
  destruct (serve_all _ _ _ _ client rs s1) as [l s2] eqn:Hall.
  cbn [snd].
  assert (Hs2 : s2 = snd (serve_all parse_query extract_clone_config clone_repo
                            ingest_query client rs s1)) by by rewrite Hall.
  destruct (decide (amount rl ≤ admissions rl client route t s)%nat) as [Hfull | Hfree].
  - rewrite (serve_over_limit client t r route rl s Hr Hok Hfull) in Hserve.
    injection Hserve as _ <-. subst s2.
    destruct (IH s Hrs' Hs) as [HF Hlen].
    rewrite Hadm in Hfull. split; [done|]. lia.
  - assert (Hh : hits s1 !! (client, route)
                 = Some (t :: default [] (hits s !! (client, route)))).
    { replace s1 with (snd (served client t r s)) by by rewrite Hserve.
      rewrite (serve_under_limit client t r route rl s Hr Hok) by lia.
      rewrite lookup_insert_eq. by rewrite (recent_all _ now) by (done || lia). }
    subst s2. destruct (IH s1 Hrs') as [HF Hlen].
    { rewrite Hh. simpl. constructor; [lia | done]. }
    rewrite Hadm in Hfree. split; [done|].
    rewrite Hh in Hlen. cbn [default from_option id length] in Hlen. lia.
Qed.

(** C9: both /ingest routes carry the limit of 5 requests in 60 seconds
    and the summary route that of 10; a request of a client who already
    has that many admissions on the route within the window is answered
    with the rate-limit status, which no other path of the router uses for
    a refusal, and with the world, the log of collaborator calls and the
    limiter's storage left as they were; in particular the request that
    follows, at [now], as many requests as the limit allows, all of the
    same client and route and made in the 60 seconds up to [now] on a
    server that had not seen this client on this route, is refused so. *)
Theorem C9_rate_limit client now r route rl (s : State) :
  (∀ src mfs inc exc inc' exc' br,
      route_limit (PostIngest src mfs inc exc br)
      = Some ("ingest_repository", {| amount := 5; per_seconds := 60 |}) ∧
      route_limit (GetIngest src mfs inc' exc' br)
      = Some ("ingest_repository_get", {| amount := 5; per_seconds := 60 |}) ∧
      route_limit (GetIngestSummary src br)
      = Some ("get_repository_summary", {| amount := 10; per_seconds := 60 |})) ∧
  (status too_many_requests ≠ 200 ∧ status too_many_requests ≠ 400 ∧
   status too_many_requests ≠ 422 ∧ status too_many_requests ≠ 500) ∧
  (route_limit r = Some (route, rl) → reaches_handler r = true →
   ((amount rl ≤ admissions rl client route now s)%nat →
    served client now r s = (too_many_requests, s)) ∧
   (∀ rs,
      length rs = amount rl →
      hits s !! (client, route) = None →
      (∀ t r', (t, r') ∈ rs →
               route_limit r' = Some (route, rl) ∧ reaches_handler r' = true ∧
               now - per_seconds rl < t ≤ now) →
      let s' := snd (serve_all parse_query extract_clone_config clone_repo
                       ingest_query client rs s) in
      served client now r s' = (too_many_requests, s'))).
Proof.
  split; [done|]. split; [by compute|].
  intros Hr Hok. split; [by apply serve_over_limit|].
  intros rs Hlen Hnone Hrs s'.
  destruct (serve_all_fills client now route rl rs s Hrs) as [HF Hfill].
  { by rewrite Hnone. }
  fold s' in HF, Hfill. rewrite Hnone in Hfill. simpl in Hfill.
  apply (serve_over_limit client now r route rl s' Hr Hok).
  unfold admissions. rewrite (recent_all _ now) by (done || lia). lia.
Qed.

End RouterFacts.

(** ** The scenarios of the test suite *)

Lemma C1_witness :
  let mocked_get :=
    ingest_repository_get (mock_parse_query (Ok remote_query))
      (mock_extract_clone_config (Ok "cfg")) (mock_clone_repo (Ok ()))
      (mock_ingest_query (Ok triple)) in
  let mocked_serve :=
    serve (mock_parse_query (Ok remote_query))
      (mock_extract_clone_config (Ok "cfg")) (mock_clone_repo (Ok ()))
      (mock_ingest_query (Ok triple)) in
  mocked_get "https://github.com/test/repo" (Some 2097152)
    (Some "*.py, *.md") None (Some "develop") boot
  = mock_post (Ok remote_query) (Ok ()) (Ok triple)
      {| source := "https://github.com/test/repo";
         max_file_size := Some 2097152;
         include_patterns := Some {[ "*.py"; "*.md" ]};
         exclude_patterns := None;
         branch := Some "develop" |} ∧
  fst (mocked_serve "client" 0
         (GetIngest "https://github.com/test/repo" (Some 2097152)
            (Some "*.py, *.md") None (Some "develop")) boot)
  = fst (mocked_serve "client" 0
           (PostIngest "https://github.com/test/repo" (Some 2097152)
              (Some {[ "*.py"; "*.md" ]}) None (Some "develop")) boot).
Proof.
  intros mocked_get mocked_serve.
  assert (Hinc : spec_normalised_filter (Some "*.py, *.md")
                   (Some {[ "*.py"; "*.md" ]})).
  { vm_compute. reflexivity. }
  destruct (C1_get_agrees_with_normalised_post
              (mock_parse_query (Ok remote_query))
              (mock_extract_clone_config (Ok "cfg")) (mock_clone_repo (Ok ()))
              (mock_ingest_query (Ok triple))
              "https://github.com/test/repo" (Some 2097152) (Some "*.py, *.md")
              None (Some {[ "*.py"; "*.md" ]}) None (Some "develop")
              "client" 0 boot eq_refl Hinc eq_refl) as [H1 H2].
  split; [exact H1|]. apply H2; vm_compute; lia.
Defined.

(** The parameter " *.py" of a GET and the set holding " *.py" of a POST
    are the same filter after normalisation; the GET handler hands the
    resolver the pattern "*.py", the POST handler the pattern " *.py" as
    it came, and the two responses differ. *)
Lemma C1_counterexample :
  let sent :=
    ingest_repository_get keeping_parse_query
      keeping_extract_clone_config (mock_clone_repo (Ok ()))
      filtering_ingest_query
      "/path/to/local/project" (Some 1048576) (Some " *.py") None None fresh in
  let posted :=
    ingest_repository keeping_parse_query
      keeping_extract_clone_config (mock_clone_repo (Ok ()))
      filtering_ingest_query
      {| source := "/path/to/local/project"; max_file_size := Some 1048576;
         include_patterns := Some {[ " *.py" ]}; exclude_patterns := None;
         branch := None |} fresh in
  spec_equal_filter (Some " *.py") (Some {[ " *.py" ]}) ∧
  spec_equal_filter None None ∧
  (∃ r, fst sent = Ok r ∧
        data r ≫= (.!! "summary") = Some "Files analyzed: 1") ∧
  (∃ r, fst posted = Ok r ∧
        data r ≫= (.!! "summary") = Some "Files analyzed: 0") ∧
  fst sent ≠ fst posted.
Proof.
  intros sent posted.
  split; [vm_compute; reflexivity|]. split; [exact I|].
  split; [eexists; split; reflexivity|].
  split; [eexists; split; reflexivity|].
  intros H.
  apply (f_equal (λ x, match x with
                       | Ok r => data r ≫= (.!! "summary")
                       | Raise _ => None
                       end)) in H.
  vm_compute in H. discriminate.
Qed.

Lemma C3_witness :
  fst (mock_post (Ok remote_query) (Raise (Exception "network unreachable"))
         (Ok triple) remote_request)
  = Ok (failure_envelope "network unreachable").
Proof.
  apply (proj1 (proj1 (proj2 (C3_failures_by_class
           (mock_parse_query (Ok remote_query))
           (mock_extract_clone_config (Ok "cfg"))
           (mock_clone_repo (Raise (Exception "network unreachable")))
           (mock_ingest_query (Ok triple)) remote_request boot))
         remote_query () (Exception "network unreachable")
         eq_refl
         (conj eq_refl (or_intror (ex_intro _ "cfg"
            (ex_intro _ () (ex_intro _ () (conj eq_refl eq_refl)))))))).
  exact I.
Defined.

(** A [ValueError] of the clone step is a failure of acquisition, and it is
    answered with a 400, not with the failure envelope. *)
Lemma C3_counterexample :
  let e := ValueError "Repository not found" in
  acquisition_fails (mock_extract_clone_config (Ok "cfg"))
    (mock_clone_repo (Raise e)) (effective_query remote_request remote_query)
    () e ∧
  fst (mock_post (Ok remote_query) (Raise e) (Ok triple) remote_request)
  = Raise (HTTPException 400 "Repository not found") ∧
  fst (mock_post (Ok remote_query) (Raise e) (Ok triple) remote_request)
  ≠ Ok (failure_envelope (str e)).
Proof.
  intros e. split; [|split].
  - split; [reflexivity|]. right. by exists "cfg", (), ().
  - reflexivity.
  - discriminate.
Qed.

Lemma C4_witness :
  fst (mock_post (Ok remote_query) (Ok ()) (Ok triple) remote_request)
  = Ok (success_envelope "Repository: test/repo" "tree..." "content..."
          {[ "source_type" := "remote"; "repository" := "test/repo";
             "branch" := "main"; "subpath" := "/" ]}).
Proof.
  apply (proj1 (C4_metadata_of_resolved_query
           (mock_parse_query (Ok remote_query))
           (mock_extract_clone_config (Ok "cfg")) (mock_clone_repo (Ok ()))
           (mock_ingest_query (Ok triple)) remote_request boot
           remote_query () () () "Repository: test/repo" "tree..." "content..."
           eq_refl
           (ex_intro _ "cfg" (ex_intro _ () (conj eq_refl eq_refl)))
           eq_refl (conj eq_refl eq_refl))).
Defined.

Lemma C5_witness :
  well_formed (failure_envelope "disk full") ∧
  (is_Some (metadata (failure_envelope "disk full"))
   ↔ success (failure_envelope "disk full") = true) ∧
  (is_Some (data (failure_envelope "disk full"))
   ↔ success (failure_envelope "disk full") = true) ∧
  (is_Some (error (failure_envelope "disk full"))
   ↔ success (failure_envelope "disk full") = false).
Proof.
  apply (C5_response_shape (mock_parse_query (Ok local_query))
           (mock_extract_clone_config (Ok "cfg")) (mock_clone_repo (Ok ()))
           (mock_ingest_query (Raise (Exception "disk full")))
           local_request "" None None None None boot).
  left. reflexivity.
Defined.

Lemma C6_witness :
  trace (snd (mock_post (Ok local_query) (Ok ()) (Ok triple) local_request))
  = [EvParseQuery "/path/to/local/project" (Some 1048576) true None None;
     EvIngestQuery local_query]
  ∧ ∃ evs,
      trace (snd (mock_post (Ok local_query) (Ok ()) (Ok triple) local_request))
      = [] ++ evs
      ∧ Forall (λ ev, clone_event ev = false) evs.
Proof.
  apply (C6_local_source_is_not_cloned (mock_parse_query (Ok local_query))
           (mock_extract_clone_config (Ok "cfg")) (mock_clone_repo (Ok ()))
           (mock_ingest_query (Ok triple)) local_request boot local_query ()
           eq_refl eq_refl).
Defined.

Lemma C8_witness :
  ∃ d meta summary,
    Some ({[ "summary" := "Repository: test/repo"; "tree" := "tree...";
             "content" := "content..." ]} : gmap string string) = Some d ∧
    Some ({[ "source_type" := "remote"; "repository" := "test/repo";
             "branch" := "main"; "subpath" := "/" ]} : gmap string string)
    = Some meta ∧
    d !! "summary" = Some summary ∧
    let view : gmap string string :=
      {[ "source" := "https://github.com/test/repo"; "summary" := summary;
         "repository" := default "" (meta !! "repository");
         "branch" := default "" (meta !! "branch") ]} in
    get_repository_summary (mock_parse_query (Ok remote_query))
      (mock_extract_clone_config (Ok "cfg")) (mock_clone_repo (Ok ()))
      (mock_ingest_query (Ok triple))
      "https://github.com/test/repo" (Some "main") boot
    = (Ok view,
       {| world := ();
          trace := [EvParseQuery "https://github.com/test/repo"
                      (Some max_file_size_default) true None None;
                    EvExtractCloneConfig remote_query; EvCloneRepo "cfg";
                    EvIngestQuery remote_query];
          hits := ∅ |}) ∧
    dom view = {[ "source"; "summary"; "repository"; "branch" ]} ∧
    view !! "tree" = None ∧ view !! "content" = None.
Proof.
  apply (proj1 (C8_summary_view (mock_parse_query (Ok remote_query))
                  (mock_extract_clone_config (Ok "cfg"))
                  (mock_clone_repo (Ok ())) (mock_ingest_query (Ok triple))
                  "https://github.com/test/repo" (Some "main") boot)
           (success_envelope "Repository: test/repo" "tree..." "content..."
              {[ "source_type" := "remote"; "repository" := "test/repo";
                 "branch" := "main"; "subpath" := "/" ]})
           _ eq_refl eq_refl).
Defined.

Lemma C9_witness :
  let mocked_serve_all :=
    serve_all (mock_parse_query (Ok remote_query))
      (mock_extract_clone_config (Ok "cfg")) (mock_clone_repo (Ok ()))
      (mock_ingest_query (Ok triple)) in
  let request :=
    PostIngest "https://github.com/test/repo" (Some 1048576) None None None in
  let s' :=
    snd (mocked_serve_all "client"
           [(0, request); (10, request); (20, request); (30, request);
            (40, request)] boot) in
  serve (mock_parse_query (Ok remote_query))
    (mock_extract_clone_config (Ok "cfg")) (mock_clone_repo (Ok ()))
    (mock_ingest_query (Ok triple)) "client" 50 request s'
  = (too_many_requests, s').
Proof.
  intros mocked_serve_all request s'.
  apply (proj2 (proj2 (proj2 (C9_rate_limit (mock_parse_query (Ok remote_query))
           (mock_extract_clone_config (Ok "cfg")) (mock_clone_repo (Ok ()))
           (mock_ingest_query (Ok triple)) "client" 50 request
           "ingest_repository" {| amount := 5; per_seconds := 60 |} boot))
         eq_refl eq_refl)).
  - reflexivity.
  - reflexivity.
  - intros t r' Hin.
    repeat (apply elem_of_cons in Hin as [Hin | Hin];
            [injection Hin as -> ->; repeat split; (reflexivity || lia) |]).
    by apply elem_of_nil in Hin.
Defined.

Lemma C10_witness :
  ∃ r, fst (mock_post (Ok remote_query) (Ok ()) (Ok triple)
              {| source := "https://github.com/test/repo";
                 max_file_size := Some 1048576; include_patterns := None;
                 exclude_patterns := None; branch := Some "" |}) = Ok r ∧
       metadata r ≫= (.!! "branch") = Some "main".
Proof.
  destruct (C10_branch_override (mock_parse_query (Ok remote_query))
              (mock_extract_clone_config (Ok "cfg")) (mock_clone_repo (Ok ()))
              (mock_ingest_query (Ok triple))
              {| source := "https://github.com/test/repo";
                 max_file_size := Some 1048576; include_patterns := None;
                 exclude_patterns := None; branch := Some "" |}
              boot remote_query () () () "Repository: test/repo" "tree..."
              "content..." eq_refl
              (ex_intro _ "cfg" (ex_intro _ () (conj eq_refl eq_refl)))
              eq_refl) as (r & Hr & Hkeep & _).
  exists r. split; [exact Hr|].
  destruct (Hkeep (or_intror eq_refl)) as [_ Hb]. exact Hb.
Defined.

(** * Further properties *)

(** ** The normaliser *)

Lemma split_app_sep c s1 s2 :
  PyStr.split c (s1 +:+ String c s2) = PyStr.split c s1 ++ PyStr.split c s2.
Proof.
  induction s1 as [|a s1 IH]; simpl.
  - by rewrite decide_True.
  - case_decide; [by rewrite IH|].
    rewrite IH. pose proof (PyStrFacts.split_nonempty c s1) as Hne.
    by destruct (PyStr.split c s1).
Qed.

Lemma pattern_set_empty_iff s :
  pattern_set s = ∅ ↔ ∀ t, t ∈ PyStr.split "," s → PyStr.strip t = "".
Proof.
  split.
  - intros He t Ht. destruct (decide (PyStr.strip t = "")) as [|Hne]; [done|].
    assert (PyStr.strip t ∈ pattern_set s) as Hin.
    { apply elem_of_pattern_set. by exists t. }
    rewrite He in Hin. by apply not_elem_of_empty in Hin.
  - intros Hall. apply leibniz_equiv, elem_of_equiv_empty. intros p Hp.
    apply elem_of_pattern_set in Hp as (t & Ht & <- & Hne). by apply Hne, Hall.
Qed.

(** X1: every pattern the normaliser returns is trimmed, not empty and
    free of commas, whatever string it is given; so is every pattern of a
    set the adapter passes on. *)
Theorem X1_normalised_patterns_are_canonical o (X : gset string) p :
  parse_patterns o = Some X → p ∈ X →
  PyStr.strip p = p ∧ p ≠ "" ∧ PyStr.lacks "," p.
Proof.
  destruct o as [s|]; [|done]. simpl.
  destruct (PyStr.truthy s); [|done]. intros [= <-] Hp.
  by apply (pattern_set_canonical s).
Qed.

Lemma X1_witness :
  PyStr.strip "*.tmp" = "*.tmp" ∧ "*.tmp" ≠ "" ∧ PyStr.lacks "," "*.tmp".
Proof.
  apply (X1_normalised_patterns_are_canonical (Some "*.log,  *.tmp ")
           {[ "*.log"; "*.tmp" ]} "*.tmp").
  - vm_compute. reflexivity.
  - apply elem_of_union. right. by apply elem_of_singleton.
Defined.

(** X2: normalising two strings put together with a comma gives the union
    of their normalisations; hence neither the order of the two parts nor
    a repetition of a part changes the result. *)
Theorem X2_normaliser_maps_commas_to_unions :
  (∀ s1 s2, pattern_set (s1 +:+ "," +:+ s2) = pattern_set s1 ∪ pattern_set s2) ∧
  (∀ s1 s2, pattern_set (s1 +:+ "," +:+ s2) = pattern_set (s2 +:+ "," +:+ s1)) ∧
  (∀ s, pattern_set (s +:+ "," +:+ s) = pattern_set s).
Proof.
  assert (Hu : ∀ s1 s2,
             pattern_set (s1 +:+ "," +:+ s2) = pattern_set s1 ∪ pattern_set s2).
  { intros s1 s2. unfold pattern_set.
    change ("," +:+ s2) with (String "," s2).
    by rewrite split_app_sep, filter_app, fmap_app, list_to_set_app_L. }
  split; [exact Hu|]. split.
  - intros s1 s2. rewrite !Hu. apply (comm_L (∪)).
  - intros s. rewrite Hu. apply (idemp_L (∪)).
Qed.

(** X3: the adapter passes no filter on exactly for a missing parameter
    and for the empty string; a non-empty string whose pieces are all
    blank gives the empty set instead, and a string gives the empty set
    only so. *)
Theorem X3_absent_and_empty_filters :
  (∀ o, parse_patterns o = None ↔ o = None ∨ o = Some "") ∧
  (∀ s, s ≠ "" →
        (parse_patterns (Some s) = Some ∅ ↔
         ∀ t, t ∈ PyStr.split "," s → PyStr.strip t = "")) ∧
  parse_patterns (Some " , ") = Some ∅.
Proof.
  split; [|split].
  - intros [s|]; simpl; [|by intuition].
    unfold PyStr.truthy. case_bool_decide as Hs.
    + split; [done|]. by intros [|[=]].
    + split; [|done]. intros _. right. f_equal.
      by destruct (decide (s = "")).
  - intros s Hs. simpl. unfold PyStr.truthy. rewrite bool_decide_true by done.
    rewrite <- pattern_set_empty_iff. split; [by intros [=] | by intros ->].
  - vm_compute. reflexivity.
Qed.

Lemma X3_witness :
  parse_patterns (Some ",") = Some ∅ ↔
  ∀ t, t ∈ PyStr.split "," "," → PyStr.strip t = "".
Proof.
  apply (proj1 (proj2 X3_absent_and_empty_filters) ","). discriminate.
Defined.

(** X4: a list of patterns, joined by commas as the example client does
    for the GET route, is normalised to the set of the list if and only if
    every pattern of the list is trimmed, not empty and free of commas. *)
Theorem X4_join_round_trip_iff_canonical (l : list string) :
  pattern_set (PyStr.join "," l) = list_to_set l ↔ Forall canonical_pattern l.
Proof.
  split; [|apply pattern_set_join].
  intros Heq. apply Forall_forall. intros p Hp.
  apply (pattern_set_canonical (PyStr.join "," l)).
  rewrite Heq. by apply elem_of_list_to_set.
Qed.

(** ** The handlers, run by run *)

Section RouterMore.

Context {World CloneConfig Rest : Type}.
Context (parse_query :
  string → option Z → bool → option (gset string) → option (gset string) →
  World → res (IngestionQuery Rest) * World).
Context (extract_clone_config :
  IngestionQuery Rest → World → res CloneConfig * World).
Context (clone_repo : CloneConfig → World → res () * World).
Context (ingest_query :
  IngestionQuery Rest → World → res (string * string * string) * World).

Abbreviation State := (@St World CloneConfig Rest).
Abbreviation post := (ingest_repository parse_query extract_clone_config
                        clone_repo ingest_query).
Abbreviation get := (ingest_repository_get parse_query extract_clone_config
                       clone_repo ingest_query).
Abbreviation summary_of := (get_repository_summary parse_query
                              extract_clone_config clone_repo ingest_query).
Abbreviation served := (serve parse_query extract_clone_config clone_repo
                          ingest_query).
Abbreviation fails := (pipeline_fails parse_query extract_clone_config
                         clone_repo ingest_query).
Abbreviation calls := (expected_calls parse_query extract_clone_config
                         clone_repo).

Ltac run :=
  unfold ingest_repository, try_except, mbind, M_bind, call, mret, M_ret,
    raise; simpl.

(** The outcome and the log of a run, by the answers of the
    collaborators. *)
Lemma post_run body (s : State) :
  trace (snd (post body s)) = trace s ++ calls body (world s) ∧
  hits (snd (post body s)) = hits s ∧
  ((∃ e, fails body (world s) e ∧ fst (post body s) = failure_outcome e) ∨
   (∃ q0 w1 w2 summary tree content,
       resolved parse_query body (world s) q0 w1 ∧
       acquired extract_clone_config clone_repo (effective_query body q0) w1 w2 ∧
       fst (ingest_query (effective_query body q0) w2)
       = Ok (summary, tree, content) ∧
       fst (post body s)
       = Ok (success_envelope summary tree content
               {[ "source_type" := source_type_of (effective_query body q0);
                  "repository" := code_repository (effective_query body q0);
                  "branch" := branch_or_default
                                (query_branch (effective_query body q0));
                  "subpath" := query_subpath (effective_query body q0) ]}))).
Proof.
  unfold pipeline_fails, expected_calls, resolution_fails, resolved,
    acquisition_fails, acquired, ingestion_fails.
  run.
  destruct (parse_query _ _ _ _ _ _) as [[q0 | e] w1] eqn:Hp; simpl.
  2: { split; [by destruct e|]. split; [by destruct e|].
       left. exists e. split; [left; by exists w1 | by destruct e]. }
  fold (effective_query body q0).
  destruct (PyStr.truthy_opt (query_url (effective_query body q0))) eqn:Hurl; simpl.
  - destruct (extract_clone_config (effective_query body q0) w1) as [[cfg | e] w2] eqn:He; simpl.
    2: { split; [destruct e; simpl; by rewrite <- app_assoc|].
         split; [by destruct e|].
         left. exists e. split; [|by destruct e].
         right. exists q0, w1. split; [done|]. left.
         split; [done|]. left. by exists w2. }
    destruct (clone_repo cfg w2) as [[[] | e] w3] eqn:Hc; simpl.
    2: { split; [destruct e; simpl; by rewrite <- !app_assoc|].
         split; [by destruct e|].
         left. exists e. split; [|by destruct e].
         right. exists q0, w1. split; [done|]. left.
         split; [done|]. right. by exists cfg, w2, w3. }
    destruct (ingest_query (effective_query body q0) w3) as [[[[a b] c] | e] w4] eqn:Hi; simpl.
    + split; [by rewrite <- !app_assoc|]. split; [done|].
      right. exists q0, w1, w3, a, b, c. split; [done|].
      rewrite Hurl. split; [by exists cfg, w2|]. rewrite Hi.
      split; [done|].
      unfold success_envelope, source_type_of, code_repository,
        branch_or_default. by rewrite Hurl.
    + split; [destruct e; simpl; by rewrite <- !app_assoc|].
      split; [by destruct e|].
      left. exists e. split; [|by destruct e].
      right. exists q0, w1. split; [done|]. right. exists w3.
      rewrite Hurl. split; [by exists cfg, w2 | by exists w4].
  - destruct (ingest_query (effective_query body q0) w1) as [[[[a b] c] | e] w4] eqn:Hi; simpl.
    + split; [by rewrite <- !app_assoc|]. split; [done|].
      right. exists q0, w1, w1, a, b, c. split; [done|].
      rewrite Hurl. split; [done|]. rewrite Hi. split; [done|].
      unfold success_envelope, source_type_of, code_repository,
        branch_or_default. by rewrite Hurl.
    + split; [destruct e; simpl; by rewrite <- !app_assoc|].
      split; [by destruct e|].
      left. exists e. split; [|by destruct e].
      right. exists q0, w1. split; [done|]. right. exists w1.
      rewrite Hurl. split; [done | by exists w4].
Qed.

(** The stages are exclusive: a failing run has one first failure. *)
Lemma fails_first body w e :
  fails body w e →
  first_failure parse_query extract_clone_config clone_repo ingest_query body w
  = Some e.
Proof.
  unfold pipeline_fails, resolution_fails, resolved, acquisition_fails,
    acquired, ingestion_fails, first_failure.
  intros [[w1 H] | (q0 & w1 & Hr & H)]; [by rewrite H|].
  rewrite Hr. cbv zeta.
  destruct H as [[Hu [[w2 H] | (cfg & w2 & w3 & Hc & H)]] | (w2 & Ha & [w3 H])].
  - by rewrite Hu, H.
  - by rewrite Hu, Hc, H.
  - destruct (PyStr.truthy_opt (query_url (effective_query body q0))).
    + destruct Ha as (cfg & w' & -> & ->). by rewrite H.
    + subst w2. by rewrite H.
Qed.

Lemma succeeds_first body w q0 w1 w2 x :
  resolved parse_query body w q0 w1 →
  acquired extract_clone_config clone_repo (effective_query body q0) w1 w2 →
  fst (ingest_query (effective_query body q0) w2) = Ok x →
  first_failure parse_query extract_clone_config clone_repo ingest_query body w
  = None.
Proof.
  unfold resolved, acquired, first_failure. intros -> Ha Hi. cbv zeta.
  destruct (PyStr.truthy_opt (query_url (effective_query body q0))).
  - destruct Ha as (cfg & w' & -> & ->).
    destruct (ingest_query _ w2) as [[?|?] ?]; [done | discriminate].
  - subst w2. destruct (ingest_query _ w1) as [[?|?] ?]; [done | discriminate].
Qed.

(** A failing run ends as the [except] clauses decide. *)
Lemma post_fails body (s : State) e :
  fails body (world s) e → fst (post body s) = failure_outcome e.
Proof.
  intros Hf. apply fails_first in Hf.
  destruct (post_run body s) as (_ & _ & [(e' & Hf' & ->) | Hok]).
  - apply fails_first in Hf'. congruence.
  - destruct Hok as (q0 & w1 & w2 & a & b & c & Hr & Ha & Hi & _).
    rewrite (succeeds_first _ _ _ _ _ _ Hr Ha Hi) in Hf. discriminate.
Qed.

(** The summary handler in terms of the full handler. *)
Lemma summary_run src br (s : State) :
  summary_of src br s =
  match post (summary_body src br) s with
  | (Ok r, s') =>
      if negb (success r) then
        (Raise (HTTPException 400 (default "Bad Request" (error r))), s')
      else
        try_except
          (summary ← subscript (data r) "summary";
           repository ← get_or (metadata r) "repository" "";
           branch' ← get_or (metadata r) "branch" "";
           mret ({[ "source" := src; "summary" := summary;
                    "repository" := repository; "branch" := branch' ]}
                 : gmap string string))
          (λ e, match e with
                | HTTPException _ _ => raise e
                | ValueError _ | Exception _ =>
                    raise (HTTPException 500 (str e))
                | BaseException _ => raise e
                end) s'
  | (Raise e, s') =>
      match e with
      | HTTPException _ _ | BaseException _ => (Raise e, s')
      | ValueError _ | Exception _ => (Raise (HTTPException 500 (str e)), s')
      end
  end.
Proof.
  unfold get_repository_summary, try_except, IngestRequest_init,
    IngestRequest_validate, mbind, M_bind. simpl.
  fold (summary_body src br).
  destruct (post (summary_body src br) s) as [[r | e] s']; simpl.
  - by destruct (success r).
  - by destruct e.
Qed.

Lemma appended_post body (s : State) :
  appended s (snd (post body s)) = calls body (world s).
Proof.
  unfold appended. destruct (post_run body s) as (-> & _).
  apply drop_app_length.
Qed.

(** X5: the collaborator calls of a run of [ingest_repository] are
    determined by the answers of the collaborators: the resolver alone
    when it raises; the resolver and ingestion for a query without url;
    otherwise the resolver, the derivation of the clone configuration, the
    clone and ingestion, cut short after the first of them that raises.
    The resolver gets the fields of the request unchanged, with from_web
    set; the later calls get the query after the branch override. *)
Theorem X5_call_sequence body (s : State) :
  appended s (snd (post body s))
  = expected_calls parse_query extract_clone_config clone_repo body (world s).
Proof. apply appended_post. Qed.

(** X6: in every run the resolver is called first, and the calls follow
    the order resolver, clone configuration, clone, ingestion with no
    collaborator called twice: nothing is retried. *)
Theorem X6_calls_in_order_without_retry body (s : State) :
  (∃ evs, appended s (snd (post body s))
          = EvParseQuery (source body) (max_file_size body) true
              (include_patterns body) (exclude_patterns body) :: evs) ∧
  StronglySorted lt (event_kind <$> appended s (snd (post body s))).
Proof.
  rewrite appended_post. unfold expected_calls.
  destruct (parse_query _ _ _ _ _ _) as [[q0 | e] w1]; cbv zeta.
  2: { split; [by eexists|]. repeat constructor. }
  destruct (PyStr.truthy_opt _).
  - destruct (extract_clone_config _ _) as [[cfg | e] w2].
    + destruct (clone_repo _ _) as [[[] | e] w3];
        (split; [by eexists|]); simpl; repeat constructor; lia.
    + split; [by eexists|]. simpl. repeat constructor; lia.
  - split; [by eexists|]. simpl. repeat constructor; lia.
Qed.

(** X7: ingestion is attempted exactly in the runs in which resolution and
    acquisition have succeeded, and then on the query after the branch
    override. *)
Theorem X7_ingestion_only_after_acquisition body (s : State) q :
  EvIngestQuery q ∈ appended s (snd (post body s)) ↔
  ∃ q0 w1 w2,
    resolved parse_query body (world s) q0 w1 ∧
    acquired extract_clone_config clone_repo (effective_query body q0) w1 w2 ∧
    q = effective_query body q0.
Proof.
  rewrite appended_post. unfold expected_calls, resolved, acquired.
  destruct (parse_query _ _ _ _ _ _) as [[q0 | e] w1]; cbv zeta.
  2: { split.
       - intros Hin. apply list_elem_of_singleton in Hin. discriminate.
       - intros (? & ? & ? & [=] & _). }
  destruct (PyStr.truthy_opt (query_url (effective_query body q0))) eqn:Hu.
  - destruct (extract_clone_config _ _) as [[cfg | e] w2] eqn:He.
    + destruct (clone_repo _ _) as [[[] | e] w3] eqn:Hc.
      * split.
        -- intros Hin. exists q0, w1, w3. split; [done|]. rewrite Hu.
           split; [by exists cfg, w2|].
           repeat (apply elem_of_cons in Hin as [Hin | Hin];
                   [by simplify_eq|]).
           by apply elem_of_nil in Hin.
        -- intros (? & ? & ? & [= <- <-] & _ & ->).
           rewrite !elem_of_cons. tauto.
      * split.
        -- intros Hin.
           repeat (apply elem_of_cons in Hin as [Hin | Hin];
                   [discriminate|]).
           by apply elem_of_nil in Hin.
        -- intros (? & ? & ? & [= <- <-] & Ha & _). rewrite Hu in Ha.
           destruct Ha as (? & ? & Ha & Hb). rewrite He in Ha.
           injection Ha as <- <-. rewrite Hc in Hb. discriminate.
    + split.
      * intros Hin.
        repeat (apply elem_of_cons in Hin as [Hin | Hin]; [discriminate|]).
        by apply elem_of_nil in Hin.
      * intros (? & ? & ? & [= <- <-] & Ha & _). rewrite Hu in Ha.
        destruct Ha as (? & ? & Ha & _). rewrite He in Ha. discriminate.
  - split.
    + intros Hin. exists q0, w1, w1. split; [done|]. rewrite Hu.
      split; [done|].
      repeat (apply elem_of_cons in Hin as [Hin | Hin]; [by simplify_eq|]).
      by apply elem_of_nil in Hin.
    + intros (? & ? & ? & [= <- <-] & _ & ->).
      rewrite !elem_of_cons. tauto.
Qed.

(** X8: a failure of the resolver that is no [ValueError] but of class
    [Exception] comes back as the failure envelope carrying its message,
    and no other collaborator is called. *)
Theorem X8_resolver_failure_envelope body (s : State) e :
  resolution_fails parse_query body (world s) e → ordinary e →
  fst (post body s) = Ok (failure_envelope (str e)) ∧
  appended s (snd (post body s))
  = [EvParseQuery (source body) (max_file_size body) true
       (include_patterns body) (exclude_patterns body)].
Proof.
  intros Hf He. split.
  - rewrite (post_fails body s e) by by left. by destruct e.
  - rewrite appended_post. unfold expected_calls.
    destruct Hf as [w1 ->]. done.
Qed.

(** X9: an exception outside the class [Exception], raised at any stage,
    leaves the three handlers as it is: it is neither turned into a 400 or
    a 500 nor into a failure envelope. *)
Theorem X9_base_exceptions_pass_through src mfs inc exc br (s : State) msg :
  let body := {| source := src; max_file_size := mfs;
                 include_patterns := parse_patterns inc;
                 exclude_patterns := parse_patterns exc; branch := br |} in
  (fails body (world s) (BaseException msg) →
   fst (post body s) = Raise (BaseException msg) ∧
   (max_file_size_ok mfs = true →
    fst (get src mfs inc exc br s) = Raise (BaseException msg))) ∧
  (fails (summary_body src br) (world s) (BaseException msg) →
   fst (summary_of src br s) = Raise (BaseException msg)).
Proof.
  intros body. split.
  - intros Hf. pose proof (post_fails body s _ Hf) as Hp. split; [done|].
    intros Hok. by rewrite get_delegates.
  - intros Hf. pose proof (post_fails (summary_body src br) s _ Hf) as Hp.
    rewrite summary_run.
    destruct (post (summary_body src br) s) as [[r | e] s']; simpl in *;
      by simplify_eq.
Qed.

(** X10: what [ingest_repository] raises is a 400 made of a [ValueError] of
    some stage, with its message as detail, or an exception outside
    [Exception] raised by some stage; the GET handler raises in addition a
    [ValueError] of its own, exactly for a size outside the bounds. *)
Theorem X10_exceptions_that_escape body src mfs inc exc br (s : State) e :
  (fst (post body s) = Raise e →
   (∃ msg, e = HTTPException 400 msg ∧ fails body (world s) (ValueError msg)) ∨
   (∃ msg, e = BaseException msg ∧ fails body (world s) e)) ∧
  (fst (get src mfs inc exc br s) = Raise e →
   (∃ msg, e = ValueError msg ∧ max_file_size_ok mfs = false) ∨
   (∃ msg, e = HTTPException 400 msg ∧ max_file_size_ok mfs = true) ∨
   (∃ msg, e = BaseException msg ∧ max_file_size_ok mfs = true)).
Proof.
  assert (Hpost : ∀ b, fst (post b s) = Raise e →
            (∃ msg, e = HTTPException 400 msg ∧ fails b (world s) (ValueError msg)) ∨
            (∃ msg, e = BaseException msg ∧ fails b (world s) e)).
  { intros b H.
    destruct (post_run b s) as (_ & _ & [(e' & Hf & He) | Hok]).
    - rewrite He in H. destruct e'; simplify_eq/=.
      + left. by eexists.
      + right. by eexists.
    - destruct Hok as (? & ? & ? & ? & ? & ? & _ & _ & _ & He).
      rewrite He in H. discriminate. }
  split; [apply Hpost|].
  intros H. destruct (max_file_size_ok mfs) eqn:Hok.
  - rewrite get_delegates in H by done. right.
    destruct (Hpost _ H) as [(m & -> & _) | (m & -> & _)]; [left | right];
      by eexists.
  - left. destruct (get_validation_fails parse_query extract_clone_config
                      clone_repo ingest_query src mfs inc exc br s Hok)
      as [m Hm].
    rewrite Hm in H. simplify_eq/=. by eexists.
Qed.

(** X11: the summary handler raises exactly when some stage of the full
    pipeline fails: the exception itself when it lies outside [Exception],
    and otherwise, for a [ValueError] as for any other failure, a 400 with
    the message of the failure as detail; it never raises a 500. *)
Theorem X11_summary_failures src br (s : State) :
  (∀ e0, fails (summary_body src br) (world s) e0 →
         fst (summary_of src br s)
         = Raise (match e0 with
                  | BaseException _ => e0
                  | _ => HTTPException 400 (str e0)
                  end)) ∧
  (∀ e, fst (summary_of src br s) = Raise e →
        ∃ e0, fails (summary_body src br) (world s) e0) ∧
  (∀ msg, fst (summary_of src br s) ≠ Raise (HTTPException 500 msg)).
Proof.
  pose proof (post_run (summary_body src br) s) as (_ & _ & Hrun).
  rewrite summary_run.
  destruct (post (summary_body src br) s) as [[r | e] s'] eqn:Hp; simpl in *.
  - destruct Hrun as [(e0 & Hf & He) | Hok].
    + assert (r = failure_envelope (str e0)) as ->.
      { destruct e0; simplify_eq/=; done. }
      simpl. split; [|split].
      * intros e1 Hf1. apply fails_first in Hf, Hf1.
        assert (e1 = e0) as -> by congruence.
        destruct e0; simplify_eq/=; done.
      * intros _ _. by exists e0.
      * intros msg [=].
    + destruct Hok as (q0 & w1 & w2 & a & b & c & Hr & Ha & Hi & He).
      simplify_eq/=.
      unfold try_except, mbind, M_bind, subscript, get_or, mret, M_ret.
      simplify_map_eq. split; [|split]; [|done..].
      intros e1 Hf1. apply fails_first in Hf1.
      by rewrite (succeeds_first _ _ _ _ _ _ Hr Ha Hi) in Hf1.
  - destruct Hrun as [(e0 & Hf & He) | Hok].
    2: { destruct Hok as (? & ? & ? & ? & ? & ? & _ & _ & _ & [=]). }
    split; [|split].
    + intros e1 Hf1. apply fails_first in Hf, Hf1.
      assert (e1 = e0) as -> by congruence.
      destruct e0; simplify_eq/=; done.
    + intros _ _. by exists e0.
    + intros msg. destruct e0; simplify_eq/=; done.
Qed.

(** X12: the summary handler leaves the world and the log as the full
    handler does on the request it builds: it makes the same calls, with
    the default size and without patterns, clone and full ingestion
    included. *)
Theorem X12_summary_runs_the_full_pipeline src br (s : State) :
  snd (summary_of src br s) = snd (post (summary_body src br) s) ∧
  appended s (snd (summary_of src br s))
  = expected_calls parse_query extract_clone_config clone_repo
      {| source := src; max_file_size := Some 10485760;
         include_patterns := None; exclude_patterns := None; branch := br |}
      (world s).
Proof.
  assert (Hst : snd (summary_of src br s) = snd (post (summary_body src br) s)).
  { rewrite summary_run.
    destruct (post (summary_body src br) s) as [[r | e] s']; simpl.
    - destruct (success r); simpl; [|done].
      unfold try_except, mbind, M_bind, subscript, get_or, mret, M_ret, raise.
      destruct (data r) as [d|]; [destruct (d !! "summary")|];
        destruct (metadata r); done.
    - by destruct e. }
  split; [done|]. rewrite Hst. apply appended_post.
Qed.

(** X13: the size bounds are inclusive: a size is accepted exactly when it
    is missing or lies between 1024 and 104857600, both included.  With an
    accepted size the GET handler makes the calls of a run on the request
    with that size and the normalised patterns; with any other size it
    raises a [ValueError] and leaves the world and the log untouched. *)
Theorem X13_get_size_bounds src mfs inc exc br (s : State) :
  (max_file_size_ok mfs = true ↔
   mfs = None ∨ ∃ n, mfs = Some n ∧ 1024 ≤ n ≤ 104857600) ∧
  (max_file_size_ok mfs = true →
   appended s (snd (get src mfs inc exc br s))
   = expected_calls parse_query extract_clone_config clone_repo
       {| source := src; max_file_size := mfs;
          include_patterns := parse_patterns inc;
          exclude_patterns := parse_patterns exc; branch := br |} (world s)) ∧
  (max_file_size_ok mfs = false →
   ∃ msg, get src mfs inc exc br s = (Raise (ValueError msg), s)).
Proof.
  split; [|split].
  - unfold max_file_size_ok, max_file_size_ge, max_file_size_le.
    destruct mfs as [n|]; [|by intuition].
    rewrite andb_true_iff, !Z.leb_le. split.
    + intros [? ?]. right. exists n. split; [done | lia].
    + intros [[=] | (? & [= <-] & ?)]. lia.
  - intros Hok. rewrite get_delegates by done. apply appended_post.
  - apply get_validation_fails.
Qed.

(** X16: a non-empty branch of the request is what the clone step works
    with: for a resolved query with a url, the clone configuration is
    derived from the query carrying the requested branch, all its other
    fields as resolved, the clone is called with that configuration, and
    ingestion, if the clone succeeds, gets the same query. *)
Theorem X16_override_reaches_the_clone body (s : State) q0 w1 b cfg w2 :
  resolved parse_query body (world s) q0 w1 →
  branch body = Some b → b ≠ "" →
  PyStr.truthy_opt (query_url q0) = true →
  extract_clone_config (set_branch q0 (Some b)) w1 = (Ok cfg, w2) →
  ∃ rest,
    appended s (snd (post body s))
    = EvParseQuery (source body) (max_file_size body) true
        (include_patterns body) (exclude_patterns body)
      :: EvExtractCloneConfig (set_branch q0 (Some b))
      :: EvCloneRepo cfg :: rest ∧
    (rest = [] ∨ rest = [EvIngestQuery (set_branch q0 (Some b))]).
Proof.
  intros Hr Hb Hne Hu He.
  assert (Hq : effective_query body q0 = set_branch q0 (Some b)).
  { unfold effective_query. rewrite Hb. simpl. unfold PyStr.truthy.
    by rewrite bool_decide_true. }
  rewrite appended_post. unfold expected_calls. rewrite Hr. cbv zeta.
  rewrite Hq. simpl. rewrite Hu, He.
  destruct (clone_repo cfg w2) as [[[] | e] w3]; eexists; split; eauto.
Qed.

(** X17: in a successful response the source type tells whether the clone
    ran: it is "remote" exactly when the clone collaborator has been
    called in the run, and "local" otherwise. *)
Theorem X17_source_type_tells_the_clone body (s : State) r :
  fst (post body s) = Ok r → success r = true →
  (metadata r ≫= (.!! "source_type") = Some "remote" ↔
   ∃ cfg, EvCloneRepo cfg ∈ appended s (snd (post body s))) ∧
  (metadata r ≫= (.!! "source_type") = Some "local" ↔
   ¬ ∃ cfg, EvCloneRepo cfg ∈ appended s (snd (post body s))).
Proof.
  intros Hp Hs. rewrite appended_post.
  destruct (post_run body s) as (_ & _ & [(e & _ & He) | Hok]).
  { rewrite He in Hp. destruct e; simplify_eq/=. }
  destruct Hok as (q0 & w1 & w2 & a & b & c & Hr & Ha & Hi & He).
  rewrite He in Hp. injection Hp as <-. simpl.
  unfold expected_calls, resolved, acquired, source_type_of in *.
  rewrite Hr. cbv zeta. simplify_map_eq.
  destruct (PyStr.truthy_opt (query_url (effective_query body q0))).
  - destruct Ha as (cfg & w' & -> & ->).
    assert (Hin : ∃ cfg0, EvCloneRepo cfg0
                    ∈ [EvParseQuery (source body) (max_file_size body) true
                         (include_patterns body) (exclude_patterns body);
                       EvExtractCloneConfig (effective_query body q0);
                       EvCloneRepo cfg;
                       EvIngestQuery (effective_query body q0)]).
    { exists cfg. rewrite !elem_of_cons. tauto. }
    split; split; try done; intros Hn; by destruct Hn.
  - assert (Hout : ¬ ∃ cfg0 : CloneConfig, EvCloneRepo cfg0
                    ∈ [EvParseQuery (source body) (max_file_size body) true
                         (include_patterns body) (exclude_patterns body);
                       EvIngestQuery (effective_query body q0)]).
    { intros [cfg0 Hin].
      repeat (apply elem_of_cons in Hin as [Hin | Hin]; [discriminate|]).
      by apply elem_of_nil in Hin. }
    split; split; try done; intros Hin; by destruct Hout.
Qed.

Lemma client_patterns_arrive (o : option (list string)) :
  Forall canonical_pattern (default [] o) →
  parse_patterns (if truthy_list o then PyStr.join "," <$> o else None)
  = list_to_set <$> (if truthy_list o then o else None).
Proof.
  destruct o as [[|p l]|]; [done | | done].
  intros Hl. change (default [] (Some (p :: l))) with (p :: l) in Hl.
  change (parse_patterns (Some (PyStr.join "," (p :: l)))
          = Some (list_to_set (p :: l))).
  unfold parse_patterns, PyStr.truthy. rewrite bool_decide_true.
  - f_equal. by apply pattern_set_join.
  - apply PyStrFacts.join_nonempty; [done|].
    eapply Forall_impl; [exact Hl|]. by intros ? (_ & ? & _).
Qed.

(** X18: the two ways of the example client lead to the same run: with a
    size the server accepts and pattern lists whose entries are trimmed,
    not empty and free of commas, the GET handler, called with what
    [_ingest_get] sends, behaves as the POST handler called with the body
    [_ingest_post] sends: same outcome, same calls.  An empty branch is
    sent by neither, so that neither overrides the resolver's branch. *)
Theorem X18_client_get_and_post_agree src mfs inc exc br (s : State) :
  max_file_size_ok (arrived_size mfs) = true →
  Forall canonical_pattern (default [] inc) →
  Forall canonical_pattern (default [] exc) →
  let p := _ingest_get_params src mfs inc exc br in
  get (p_source p) (arrived_size (p_max_file_size p)) (p_include_patterns p)
    (p_exclude_patterns p) (p_branch p) s
  = post (posted_body (_ingest_post_data src mfs inc exc br)) s ∧
  (br = Some "" → branch (posted_body (_ingest_post_data src mfs inc exc br))
                  = None).
Proof.
  intros Hok Hinc Hexc p. split; [|by intros ->].
  unfold p, _ingest_get_params, _ingest_post_data, posted_body. simpl.
  rewrite get_delegates by done.
  by rewrite !client_patterns_arrive.
Qed.

End RouterMore.

(** ** The further properties on the scenarios of the test suite *)

Lemma X8_witness :
  fst (mock_post (Raise (Exception "connection reset")) (Ok ()) (Ok triple)
         remote_request)
  = Ok (failure_envelope "connection reset") ∧
  appended boot
    (snd (mock_post (Raise (Exception "connection reset")) (Ok ()) (Ok triple)
            remote_request))
  = [EvParseQuery "https://github.com/test/repo" (Some 1048576) true
       (Some {[ "*.py" ]}) None].
Proof.
  apply (X8_resolver_failure_envelope
           (mock_parse_query (Raise (Exception "connection reset")))
           (mock_extract_clone_config (Ok "cfg")) (mock_clone_repo (Ok ()))
           (mock_ingest_query (Ok triple)) remote_request boot
           (Exception "connection reset")).
  - by exists ().
  - exact I.
Defined.

Lemma X9_witness :
  fst (mock_post (Ok local_query) (Ok ()) (Raise (BaseException "cancelled"))
         {| source := "/path/to/local/project"; max_file_size := Some 1048576;
            include_patterns := parse_patterns None;
            exclude_patterns := parse_patterns None; branch := None |})
  = Raise (BaseException "cancelled").
Proof.
  refine (proj1 (proj1 (X9_base_exceptions_pass_through
                          (mock_parse_query (Ok local_query))
                          (mock_extract_clone_config (Ok "cfg"))
                          (mock_clone_repo (Ok ()))
                          (mock_ingest_query (Raise (BaseException "cancelled")))
                          "/path/to/local/project" (Some 1048576) None None None
                          boot "cancelled") _)).
  right. exists local_query, (). split; [reflexivity|].
  right. exists (). split; [reflexivity|]. by exists ().
Defined.

Lemma X10_witness :
  (∃ msg, HTTPException 400 "Invalid repository URL" = HTTPException 400 msg ∧
          pipeline_fails (mock_parse_query (Raise (ValueError "Invalid repository URL")))
            (mock_extract_clone_config (Ok "cfg")) (mock_clone_repo (Ok ()))
            (mock_ingest_query (Ok triple)) remote_request () (ValueError msg)) ∨
  (∃ msg, HTTPException 400 "Invalid repository URL" = BaseException msg ∧
          pipeline_fails (mock_parse_query (Raise (ValueError "Invalid repository URL")))
            (mock_extract_clone_config (Ok "cfg")) (mock_clone_repo (Ok ()))
            (mock_ingest_query (Ok triple)) remote_request ()
            (HTTPException 400 "Invalid repository URL")).
Proof.
  apply (proj1 (X10_exceptions_that_escape
                  (mock_parse_query (Raise (ValueError "Invalid repository URL")))
                  (mock_extract_clone_config (Ok "cfg"))
                  (mock_clone_repo (Ok ())) (mock_ingest_query (Ok triple))
                  remote_request "" None None None None boot
                  (HTTPException 400 "Invalid repository URL"))).
  reflexivity.
Defined.

Lemma X11_witness :
  fst (get_repository_summary (mock_parse_query (Ok remote_query))
         (mock_extract_clone_config (Ok "cfg"))
         (mock_clone_repo (Raise (Exception "Repository not found")))
         (mock_ingest_query (Ok triple))
         "https://github.com/test/repo" None boot)
  = Raise (HTTPException 400 "Repository not found").
Proof.
  apply (proj1 (X11_summary_failures (mock_parse_query (Ok remote_query))
                  (mock_extract_clone_config (Ok "cfg"))
                  (mock_clone_repo (Raise (Exception "Repository not found")))
                  (mock_ingest_query (Ok triple))
                  "https://github.com/test/repo" None boot)
           (Exception "Repository not found")).
  right. exists remote_query, (). split; [reflexivity|].
  left. split; [reflexivity|]. right. by exists "cfg", (), ().
Defined.

Lemma X13_witness :
  ∃ msg,
    ingest_repository_get (mock_parse_query (Ok remote_query))
      (mock_extract_clone_config (Ok "cfg")) (mock_clone_repo (Ok ()))
      (mock_ingest_query (Ok triple))
      "https://github.com/test/repo" (Some 104857601) None None None boot
    = (Raise (ValueError msg), boot).
Proof.
  apply (proj2 (proj2 (X13_get_size_bounds (mock_parse_query (Ok remote_query))
                         (mock_extract_clone_config (Ok "cfg"))
                         (mock_clone_repo (Ok ())) (mock_ingest_query (Ok triple))
                         "https://github.com/test/repo" (Some 104857601)
                         None None None boot))).
  reflexivity.
Defined.

Lemma X16_witness :
  let body :=
    {| source := "https://github.com/test/repo"; max_file_size := Some 2097152;
       include_patterns := None; exclude_patterns := None;
       branch := Some "develop" |} in
  ∃ rest,
    appended boot (snd (mock_post (Ok remote_query) (Ok ()) (Ok triple) body))
    = EvParseQuery "https://github.com/test/repo" (Some 2097152) true None None
      :: EvExtractCloneConfig (set_branch remote_query (Some "develop"))
      :: EvCloneRepo "cfg" :: rest ∧
    (rest = [] ∨
     rest = [EvIngestQuery (set_branch remote_query (Some "develop"))]).
Proof.
  intros body.
  apply (X16_override_reaches_the_clone (mock_parse_query (Ok remote_query))
           (mock_extract_clone_config (Ok "cfg")) (mock_clone_repo (Ok ()))
           (mock_ingest_query (Ok triple)) body boot remote_query ()
           "develop" "cfg" ()); try reflexivity. discriminate.
Defined.

Lemma X17_witness :
  let r := success_envelope "Repository: test/repo" "tree..." "content..."
             {[ "source_type" := "remote"; "repository" := "test/repo";
                "branch" := "main"; "subpath" := "/" ]} in
  (metadata r ≫= (.!! "source_type") = Some "remote" ↔
   ∃ cfg, EvCloneRepo cfg
          ∈ appended boot
              (snd (mock_post (Ok remote_query) (Ok ()) (Ok triple)
                      remote_request))) ∧
  (metadata r ≫= (.!! "source_type") = Some "local" ↔
   ¬ ∃ cfg, EvCloneRepo cfg
            ∈ appended boot
                (snd (mock_post (Ok remote_query) (Ok ()) (Ok triple)
                        remote_request))).
Proof.
  intros r.
  apply (X17_source_type_tells_the_clone (mock_parse_query (Ok remote_query))
           (mock_extract_clone_config (Ok "cfg")) (mock_clone_repo (Ok ()))
           (mock_ingest_query (Ok triple)) remote_request boot r);
    reflexivity.
Defined.

Lemma X18_witness :
  let p := _ingest_get_params "https://github.com/octocat/Hello-World"
             (Some 1048576) (Some ["*.md"; "*.txt"]) None None in
  ingest_repository_get (mock_parse_query (Ok remote_query))
    (mock_extract_clone_config (Ok "cfg")) (mock_clone_repo (Ok ()))
    (mock_ingest_query (Ok triple))
    (p_source p) (arrived_size (p_max_file_size p)) (p_include_patterns p)
    (p_exclude_patterns p) (p_branch p) boot
  = mock_post (Ok remote_query) (Ok ()) (Ok triple)
      (posted_body (_ingest_post_data "https://github.com/octocat/Hello-World"
                      (Some 1048576) (Some ["*.md"; "*.txt"]) None None)).
Proof.
  intros p.
  apply (X18_client_get_and_post_agree (mock_parse_query (Ok remote_query))
           (mock_extract_clone_config (Ok "cfg")) (mock_clone_repo (Ok ()))
           (mock_ingest_query (Ok triple))
           "https://github.com/octocat/Hello-World" (Some 1048576)
           (Some ["*.md"; "*.txt"]) None None boot).
  - reflexivity.
  - repeat constructor; simpl; intuition discriminate.
  - constructor.
Defined.
